(** * twitch_parsing.py: chat-log classifiers, stream summary and revenue

    A shallow embedding of [twitch_parsing.py].

    - Strings are lists of characters; a character is one of the code points
      U+0000..U+00FF, and the classes [\d], [\w], [.] and the methods
      [str.lower], [str.strip] are the ones Python gives on that range.
    - The patterns are compiled to opcode sequences and run by a backtracking
      matcher with the priorities of Python's [re]: [*?] tries the shortest
      repetition first, [+] the longest, [search] the leftmost start.
    - Integers are [Z]: the counts and sums of a chat log stay far inside the
      64-bit columns that hold them.  [int] reads a string of digits of any
      length.
    - Python floats and NumPy float64 values are binary64 numbers
      ([PrimFloat.float]) with the IEEE operations of the kernel.
    - Exceptions are values of an error type, threaded through a result type.
    - A frame is the list of its rows; a dict is an association list in
      insertion order.
    - The block run as a script is a function of its arguments, given the
      files found under each folder and the width of the terminal; what it
      prints is the list of the printed values. *)

From Stdlib Require Import Ascii String ZArith NArith Lia Bool Floats List.
From Stdlib Require Import Permutation.
Import ListNotations.

Set Warnings "-inexact-float".

(** ** Python strings *)

Module Py.

Definition str := list ascii.

(** A string literal of the source. *)
Definition lit (s : string) : str := list_ascii_of_string s.

Definition code (a : ascii) : N := N_of_ascii a.

Definition in_range (lo hi : N) (a : ascii) : bool :=
  (N.leb lo (code a) && N.leb (code a) hi)%bool.

Definition newline : ascii := ascii_of_N 10.
Definition dquote : ascii := ascii_of_N 34.

(** [\d] of a str pattern: the decimal digits (Unicode category Nd). *)
Definition is_digit (a : ascii) : bool := in_range 48 57 a.

(** [\w] of a str pattern: alphanumeric characters and the underscore. *)
Definition is_word (a : ascii) : bool :=
  existsb (fun r => in_range (fst r) (snd r) a)
    [(48, 57); (65, 90); (95, 95); (97, 122); (170, 170); (178, 179);
     (181, 181); (185, 186); (188, 190); (192, 214); (216, 246); (248, 255)]%N.

(** Characters removed by [str.strip()]. *)
Definition is_space (a : ascii) : bool :=
  existsb (fun r => in_range (fst r) (snd r) a)
    [(9, 13); (28, 32); (133, 133); (160, 160)]%N.

Definition lower_char (a : ascii) : ascii :=
  if (in_range 65 90 a || in_range 192 214 a || in_range 216 222 a)%bool
  then ascii_of_N (code a + 32) else a.

(** [s.lower()] *)
Definition lower (s : str) : str := map lower_char s.

Fixpoint lstrip (s : str) : str :=
  match s with
  | a :: s' => if is_space a then lstrip s' else s
  | [] => []
  end.

(** [s.strip()] *)
Definition strip (s : str) : str := rev (lstrip (rev (lstrip s))).

(** A slice bound: a negative index counts from the end, and the result is
    clamped to [0, len]. *)
Definition slice_index (len : nat) (i : Z) : nat :=
  Z.to_nat (Z.min (Z.of_nat len) (Z.max 0 (if (i <? 0)%Z then i + Z.of_nat len else i)%Z)).

(** [s[start:stop]] *)
Definition slice (s : str) (start stop : Z) : str :=
  let b := slice_index (length s) start in
  let e := slice_index (length s) stop in
  firstn (e - b) (skipn b s).

(** [s.split(sep, maxsplit)] for a one-character separator. *)
Fixpoint split (sep : ascii) (maxsplit : nat) (s : str) {struct s} : list str :=
  match maxsplit with
  | O => [s]
  | S n =>
      match s with
      | [] => [[]]
      | a :: s' =>
          if Ascii.eqb a sep then [] :: split sep n s'
          else match split sep maxsplit s' with
               | f :: fs => (a :: f) :: fs
               | [] => [[a]]
               end
      end
  end.


Definition digit_value (a : ascii) : Z := Z.of_N (code a) - 48.

(** [int(s)] on a string of decimal digits (the only strings the program
    converts are groups matched by [\d] or [\d+]). *)
Definition int (s : str) : Z :=
  fold_left (fun acc a => 10 * acc + digit_value a)%Z s 0%Z.

(** [a or b] on optional objects ([None] is the only falsy one here). *)
Definition or_else {A} (a b : option A) : option A :=
  match a with Some _ => a | None => b end.

End Py.

(** ** The regular expressions of the program

    Patterns are compiled to the flat opcode sequence that the matching engine
    walks with backtracking.  The syntax read by [compile] is the one the
    program's patterns use: literal characters, [.], [\d], [\b], the
    quantifiers [*?] (lazy) and [+] (greedy) on a single character, and
    capturing groups. *)

Module Re.
Import Py.

Inductive charset : Type :=
| AnyChar               (** [.]: any character but a newline *)
| Digit                 (** [\d] *)
| Literal (a : ascii).

Definition charset_mem (c : charset) (a : ascii) : bool :=
  match c with
  | AnyChar => negb (Ascii.eqb a newline)
  | Digit => is_digit a
  | Literal b => Ascii.eqb a b
  end.

Inductive op : Type :=
| One (c : charset)        (** one character of the set *)
| MinStar (c : charset)    (** [c*?] *)
| MaxPlus (c : charset)    (** [c+] *)
| WordBoundary             (** [\b] *)
| Mark (i : nat).          (** group [i/2 + 1] starts (even [i]) or ends (odd [i]) *)

Definition regex := list op.

Definition quantified (c : charset) (rest : str) : op * str :=
  match rest with
  | "*"%char :: "?"%char :: rest' => (MinStar c, rest')
  | "+"%char :: rest' => (MaxPlus c, rest')
  | _ => (One c, rest)
  end.

(** [parse fuel s groups opened]: [groups] groups were opened so far and
    [opened] is the stack of the groups not yet closed. *)
Fixpoint parse (fuel : nat) (s : str) (groups : nat) (opened : list nat) : regex :=
  match fuel with
  | O => []
  | S fuel =>
      match s with
      | [] => []
      | "\"%char :: "b"%char :: rest => WordBoundary :: parse fuel rest groups opened
      | "\"%char :: "d"%char :: rest =>
          let (o, rest') := quantified Digit rest in o :: parse fuel rest' groups opened
      | "("%char :: rest => Mark (2 * groups) :: parse fuel rest (S groups) (groups :: opened)
      | ")"%char :: rest =>
          match opened with
          | g :: opened' => Mark (2 * g + 1) :: parse fuel rest groups opened'
          | [] => parse fuel rest groups opened
          end
      | "."%char :: rest =>
          let (o, rest') := quantified AnyChar rest in o :: parse fuel rest' groups opened
      | a :: rest =>
          let (o, rest') := quantified (Literal a) rest in o :: parse fuel rest' groups opened
      end
  end.

(** [re.compile(pattern)] *)
Definition compile (pattern : string) : regex :=
  parse (String.length pattern) (lit pattern) 0 [].

(** The program of a text without metacharacters. *)
Definition literal (text : string) : regex := map (fun a => One (Literal a)) (lit text).

(** The marks set so far, most recent first. *)
Definition marks := list (nat * nat).

Fixpoint get_mark (i : nat) (mk : marks) : option nat :=
  match mk with
  | [] => None
  | (j, p) :: mk' => if Nat.eqb i j then Some p else get_mark i mk'
  end.

Definition word_before (prev : option ascii) : bool :=
  match prev with Some a => is_word a | None => false end.

Definition word_here (rest : str) : bool :=
  match rest with a :: _ => is_word a | [] => false end.

(** [\b]: exactly one of the two neighbouring positions holds a word character. *)
Definition at_boundary (prev : option ascii) (rest : str) : bool :=
  xorb (word_before prev) (word_here rest).

(** The engine's state at a position: the character before it, its index,
    the text from it on, and the marks. *)
Definition cont := option ascii -> nat -> str -> marks -> option marks.

(** Try the continuation at the current position first and, when it fails,
    after each further character accepted by [ok], in turn. *)
Fixpoint scan (ok : ascii -> bool) (k : cont) (prev : option ascii) (pos : nat)
    (rest : str) (mk : marks) {struct rest} : option marks :=
  match k prev pos rest mk with
  | Some r => Some r
  | None =>
      match rest with
      | a :: rest' => if ok a then scan ok k (Some a) (S pos) rest' mk else None
      | [] => None
      end
  end.

(** Take as many characters of [c] as there are, at least one, and give them
    back one by one while the continuation fails. *)
Fixpoint max_plus (c : charset) (k : cont) (prev : option ascii) (pos : nat)
    (rest : str) (mk : marks) {struct rest} : option marks :=
  match rest with
  | a :: rest' =>
      if charset_mem c a then
        match max_plus c k (Some a) (S pos) rest' mk with
        | Some r => Some r
        | None => k (Some a) (S pos) rest' mk
        end
      else None
  | [] => None
  end.

Fixpoint run (p : regex) : cont := fun prev pos rest mk =>
  match p with
  | [] => Some mk
  | One c :: p' =>
      match rest with
      | a :: rest' => if charset_mem c a then run p' (Some a) (S pos) rest' mk else None
      | [] => None
      end
  | MinStar c :: p' => scan (charset_mem c) (run p') prev pos rest mk
  | MaxPlus c :: p' => max_plus c (run p') prev pos rest mk
  | WordBoundary :: p' => if at_boundary prev rest then run p' prev pos rest mk else None
  | Mark i :: p' => run p' prev pos rest ((i, pos) :: mk)
  end.

(** A match object: the subject string and the marks of the match. *)
Record Match : Type := { subject : str; group_marks : marks }.

(** [pattern.match(s)]: the pattern is tried at the start of [s] only. *)
Definition match_ (p : regex) (s : str) : option Match :=
  option_map (Build_Match s) (run p None 0 s []).

(** [pattern.search(s)]: the pattern is tried at every position, leftmost first. *)
Definition search (p : regex) (s : str) : option Match :=
  option_map (Build_Match s)
    (scan (fun _ => true) (fun prev pos rest _ => run p prev pos rest []) None 0 s []).

(** The character before the position reached after reading [s]. *)
Definition prev_after (prev : option ascii) (s : str) : option ascii :=
  fold_left (fun _ a => Some a) s prev.

(** [m.group(n)] for [n >= 1] *)
Definition group (m : Match) (n : nat) : str :=
  match get_mark (2 * (n - 1)) (group_marks m), get_mark (2 * (n - 1) + 1) (group_marks m) with
  | Some b, Some e => firstn (e - b) (skipn b (subject m))
  | _, _ => []
  end.



End Re.

(** ** Parsing gifts/subs/bits *)

Import Py.

Definition _GIFT_DONATION_REGEX := Re.compile ".*? gifted a Tier (\d) sub to".

Definition _get_donated_sub (message : str) : Z :=
  match Re.match_ _GIFT_DONATION_REGEX message with
  | Some donated_tier => int (Re.group donated_tier 1)
  | None => 0
  end.

Definition _SUBSCRIBE_PRIME_REGEX :=
  Re.compile ".*? subscribed with Prime. They've subscribed for (\d+) months!".
Definition _SUBSCRIBE_PRIME_WITHOUT_STREAK_REGEX :=
  Re.compile ".*? subscribed with Prime.".
Definition _SUBSCRIBE_TIER_REGEX :=
  Re.compile ".*? subscribed at Tier (\d). They've subscribed for (\d+) months, currently on a (\d+) month streak!".
Definition _SUBSCRIBE_TIER_WITHOUT_STREAK_REGEX :=
  Re.compile ".*? subscribed at Tier (\d). They've subscribed for (\d+) months!".
Definition _SUBSCRIBE_TIER_FIRST_SUBSCRIPTION_REGEX :=
  Re.compile ".*? subscribed at Tier (\d).".

Definition _get_subscription_type (message : str) : str * Z :=
  match Re.match_ _SUBSCRIBE_PRIME_REGEX message with
  | Some subscribed => (lit "prime", int (Re.group subscribed 1))
  | None =>
  match Re.match_ _SUBSCRIBE_PRIME_WITHOUT_STREAK_REGEX message with
  | Some _ => (lit "prime", 0%Z)
  | None =>
  match or_else (Re.match_ _SUBSCRIBE_TIER_REGEX message)
                (Re.match_ _SUBSCRIBE_TIER_WITHOUT_STREAK_REGEX message) with
  | Some subscribed =>
      (lit "tier_" ++ Re.group subscribed 1, int (Re.group subscribed 2))
  | None =>
  match Re.match_ _SUBSCRIBE_TIER_FIRST_SUBSCRIPTION_REGEX message with
  | Some subscribed => (lit "tier_" ++ Re.group subscribed 1, 0%Z)
  | None => (lit "none", 0%Z)
  end end end end.

Definition _BITS_REGEX := Re.compile "\bCheer(\d+)\b".

Definition _get_bits (message : str) : Z :=
  match Re.search _BITS_REGEX message with
  | Some bits => int (Re.group bits 1)
  | None => 0
  end.

(** ** Floats, exceptions and dicts *)

Module Fl.
Open Scope float_scope.

(** The binary64 value nearest to an integer (ties to even). *)
Definition of_Z (z : Z) : float := SF2Prim (binary_normalize prec emax z 0 false).

(** The integer nearest to [m * 2^e] for [m >= 0], ties to even. *)
Definition round_half_even (m e : Z) : Z :=
  if (0 <=? e)%Z then (m * 2 ^ e)%Z
  else let d := (2 ^ (- e))%Z in
       let q := (m / d)%Z in
       let r := (m mod d)%Z in
       if (2 * r <? d)%Z then q
       else if (d <? 2 * r)%Z then (q + 1)%Z
       else if Z.even q then q else (q + 1)%Z.

Definition signed (s : bool) (x : float) : float := if s then - x else x.

(** [round(x, 1)] on a Python float: the exact value of [x] is rounded to one
    decimal (ties to even) and the result is the binary64 value nearest to
    that decimal. *)
Definition py_round1 (x : float) : float :=
  match Prim2SF x with
  | S754_finite s m e =>
      match round_half_even (Z.pos m * 10) e with
      | Z.pos n =>
          signed s (SF2Prim (SFdiv prec emax (S754_finite false n 0) (S754_finite false 10 0)))
      | _ => signed s 0
      end
  | _ => x
  end.

(** [numpy.rint] *)
Definition rint (x : float) : float :=
  match Prim2SF x with
  | S754_finite s m e => signed s (of_Z (round_half_even (Z.pos m) e))
  | _ => x
  end.

(** [round(x, 1)] on a NumPy float64 scalar, which NumPy computes by scaling:
    times ten, to the nearest integer, divided by ten. *)
Definition np_round1 (x : float) : float := rint (x * 10) / 10.

End Fl.

Inductive exn : Type :=
| IndexError | KeyError | ValueError | TypeError | AttributeError | ZeroDivisionError.

Inductive res (A : Type) : Type :=
| Ok (a : A)
| Raise (e : exn).
Arguments Ok {A} a.
Arguments Raise {A} e.

Definition bind {A B} (x : res A) (k : A -> res B) : res B :=
  match x with
  | Ok a => k a
  | Raise e => Raise e
  end.

Notation "x <- e ;; k" := (bind e (fun x => k))
  (at level 61, e at next level, right associativity).

(** A comprehension whose body may raise: the first exception ends it. *)
Fixpoint traverse {A B} (f : A -> res B) (l : list A) : res (list B) :=
  match l with
  | [] => Ok []
  | a :: l' => b <- f a ;; bs <- traverse f l' ;; Ok (b :: bs)
  end.

Inductive value : Type :=
| VStr (s : str)
| VInt (z : Z)
| VFloat (x : float).

(** A dict with string keys, in insertion order. *)
Definition dict := list (string * value).

Fixpoint dict_get (d : dict) (key : string) : option value :=
  match d with
  | [] => None
  | (k, v) :: d' => if String.eqb k key then Some v else dict_get d' key
  end.

(** [d[key] = v] *)
Fixpoint dict_set (d : dict) (key : string) (v : value) : dict :=
  match d with
  | [] => [(key, v)]
  | (k, w) :: d' => if String.eqb k key then (k, v) :: d' else (k, w) :: dict_set d' key v
  end.

(** [d[key]] where the program uses the value as a number. *)
Definition get_int (d : dict) (key : string) : res Z :=
  match dict_get d key with
  | Some (VInt z) => Ok z
  | Some _ => Raise TypeError
  | None => Raise KeyError
  end.

Definition get_float (d : dict) (key : string) : res float :=
  match dict_get d key with
  | Some (VFloat x) => Ok x
  | Some (VInt z) => Ok (Fl.of_Z z)
  | Some (VStr _) => Raise TypeError
  | None => Raise KeyError
  end.

(** ** Parse file into DataFrame *)

(** A chat log: the name of the file and its lines, each with its newline. *)
Record File : Type := { name : str; lines : list str }.

(** One row of the parsed frame: the columns the program reads. *)
Record ChatEvent : Type := { time : Z; user_name : str; message : str }.

Definition DataFrame := list ChatEvent.

(** [l[-1] = f(l[-1])] *)
Definition set_last {A} (f : A -> A) (l : list A) : list A :=
  match rev l with
  | [] => []
  | x :: r => rev (f x :: r)
  end.

(** The first lines of [read_csv]: every line is split on its first three
    commas, the last header loses its surrounding white space, and the last
    field of every other line loses its first and its last two characters. *)
Definition split_lines (file_lines : list str) : res (list str * list (list str)) :=
  match map (split "," 3) file_lines with
  | [] => Raise IndexError
  | headers :: rows =>
      Ok (set_last strip headers, map (set_last (fun field => slice field 1 (-2))) rows)
  end.

Fixpoint index_of (key : str) (l : list str) : option nat :=
  match l with
  | [] => None
  | x :: l' =>
      if list_eq_dec ascii_dec x key then Some 0
      else option_map S (index_of key l')
  end.

(** [pd.to_numeric] on one cell of the [time] column of a chat log, which
    holds whole seconds: a decimal numeral with an optional minus sign gives
    its number.  The library reads other cells as well (a plus sign, blanks
    around the numeral, a decimal fraction, an empty cell as NaN); a frame
    with such a time has no counterpart here, where the cell raises. *)
Definition to_numeric (s : str) : res Z :=
  match s with
  | "-"%char :: (_ :: _) as ds => if forallb is_digit ds then Ok (- int ds)%Z else Raise ValueError
  | _ :: _ => if forallb is_digit s then Ok (int s) else Raise ValueError
  | [] => Raise ValueError
  end.

(** [read_csv] for the files whose frame has a time, a user name and a
    message in every row: the header names the three columns, and every line
    after it has one field per header and a whole number as its time.  Every
    other file raises here, which the program does not always do: it pads a
    row that is shorter than the others with None and looks the message
    column up only when the rows are classified, so that its exception, if
    any, comes later and may be another one. *)
Definition read_csv (file_lines : list str) : res DataFrame :=
  hr <- split_lines file_lines ;;
  let (headers, rows) := (hr : list str * list (list str)) in
  if forallb (fun r => Nat.eqb (length r) (length headers)) rows then
    match index_of (lit "time") headers, index_of (lit "user_name") headers,
          index_of (lit "message") headers with
    | Some i_time, Some i_user, Some i_message =>
        traverse (fun r =>
            t <- to_numeric (nth i_time r []) ;;
            Ok {| time := t;
                  user_name := lower (nth i_user r []);
                  message := nth i_message r [] |}) rows
    | _, _, _ => Raise KeyError
    end
  else Raise ValueError.

(** ** Simple statistics *)

Definition str_eq_dec : forall x y : str, {x = y} + {x <> y} := list_eq_dec ascii_dec.

(** [len(df.user_name.unique())] *)
Definition unique_users (df : DataFrame) : Z :=
  Z.of_nat (length (nodup str_eq_dec (map user_name df))).

(** [int / int] on two Python ints: the quotient of the two numbers as
    floats, which are exact for row counts. *)
Definition true_divide (a b : Z) : res float :=
  if (b =? 0)%Z then Raise ZeroDivisionError else Ok (Fl.of_Z a / Fl.of_Z b)%float.

Definition num_messages_per_user (df : DataFrame) : res float :=
  let num_messages := Z.of_nat (length df) in
  let num_users := unique_users df in
  true_divide num_messages num_users.

(** [df.time.max()]; [None] stands for the NaN of an empty column. *)
Definition stream_time_in_seconds (df : DataFrame) : option Z :=
  match map time df with
  | [] => None
  | t :: ts => Some (fold_left Z.max ts t)
  end.

(** ** Grouping it all *)

(** The new column [donated_sub]. *)
Definition add_column_sub_gifts (df : DataFrame) : list Z :=
  map (fun r => _get_donated_sub (message r)) df.

(** The new columns [subscription_type] and [subscription_months]: the two
    tuples that [zip] makes of the rows' pairs.  With no row [zip] yields
    nothing and unpacking it into two names raises. *)
Definition add_column_subscriptions (df : DataFrame) : res (list str * list Z) :=
  match df with
  | [] => Raise ValueError
  | _ => Ok (List.split (map (fun r => _get_subscription_type (message r)) df))
  end.

(** The new column [bits]. *)
Definition add_column_bits (df : DataFrame) : list Z :=
  map (fun r => _get_bits (message r)) df.

(** [column.value_counts().get(v, 0)] *)
Definition count_int (column : list Z) (v : Z) : Z :=
  Z.of_nat (count_occ Z.eq_dec column v).

Definition count_str (column : list str) (v : string) : Z :=
  Z.of_nat (count_occ str_eq_dec column (lit v)).

Definition _PRICE_TIER_1 : Z := 5.
Definition _PRICE_TIER_2 : Z := 10.
Definition _PRICE_TIER_3 : Z := 25.
Definition _PRICE_PRIME : Z := _PRICE_TIER_1.
Definition _PRICE_BITS : float := 0.01%float.

Definition calculate_revenue (result : dict) : res float :=
  donated_tier_1 <- get_int result "donated_tier_1" ;;
  donated_tier_2 <- get_int result "donated_tier_2" ;;
  donated_tier_3 <- get_int result "donated_tier_3" ;;
  subscribed_prime <- get_int result "subscribed_prime" ;;
  subscribed_tier_1 <- get_int result "subscribed_tier_1" ;;
  subscribed_tier_2 <- get_int result "subscribed_tier_2" ;;
  subscribed_tier_3 <- get_int result "subscribed_tier_3" ;;
  let subscriptions_cost :=
    (donated_tier_1 * _PRICE_TIER_1 +
     donated_tier_2 * _PRICE_TIER_2 +
     donated_tier_3 * _PRICE_TIER_3 +
     subscribed_prime * _PRICE_PRIME +
     subscribed_tier_1 * _PRICE_TIER_1 +
     subscribed_tier_2 * _PRICE_TIER_2 +
     subscribed_tier_3 * _PRICE_TIER_3)%Z in
  total_bits <- get_int result "total_bits" ;;
  Ok (Fl.of_Z subscriptions_cost / 2 + Fl.of_Z total_bits * _PRICE_BITS)%float.

(** [re.search(r"twitch-chat-(\d+)_", file_path.name).group(1)] *)
Definition chat_id_of (file_name : str) : res str :=
  match Re.search (Re.compile "twitch-chat-(\d+)_") file_name with
  | Some m => Ok (Re.group m 1)
  | None => Raise AttributeError
  end.

(** The summary of one file.  Its integers are exact: the bits total is the
    sum of the bits column, which the 64-bit sum of the program equals as
    long as it stays below 2^63. *)
Definition get_stream_summary (file_path : File) : res dict :=
  df <- read_csv (lines file_path) ;;
  let donated_sub := add_column_sub_gifts df in
  subs <- add_column_subscriptions df ;;
  let subscription_type := fst (subs : list str * list Z) in
  let bits := add_column_bits df in
  let stream_time_in_hours :=
    match stream_time_in_seconds df with
    | Some t => (Fl.of_Z t / 3600)%float
    | None => nan
    end in
  chat_id <- chat_id_of (name file_path) ;;
  messages_per_user <- num_messages_per_user df ;;
  let result : dict :=
    [("chat_id", VStr chat_id);
     ("messages_per_user", VFloat (Fl.py_round1 messages_per_user));
     ("stream_time_in_hours", VFloat (Fl.np_round1 stream_time_in_hours));
     ("unique_users", VInt (unique_users df));
     ("total_messages", VInt (Z.of_nat (length df)));
     ("donated_tier_1", VInt (count_int donated_sub 1));
     ("donated_tier_2", VInt (count_int donated_sub 2));
     ("donated_tier_3", VInt (count_int donated_sub 3));
     ("subscribed_prime", VInt (count_str subscription_type "prime"));
     ("subscribed_tier_1", VInt (count_str subscription_type "tier_1"));
     ("subscribed_tier_2", VInt (count_str subscription_type "tier_2"));
     ("subscribed_tier_3", VInt (count_str subscription_type "tier_3"));
     ("total_bits", VInt (fold_left Z.add bits 0%Z))]%string in
  revenue <- calculate_revenue result ;;
  let result := dict_set result "revenue" (VFloat revenue) in
  revenue <- get_float result "revenue" ;;
  let result := dict_set result "revenue_per_hour" (VFloat (revenue / stream_time_in_hours)) in
  revenue <- get_float result "revenue" ;;
  users <- get_float result "unique_users" ;;
  let result := dict_set result "revenue_per_user" (VFloat (revenue / users)) in
  Ok result.

(** ** Tables of summaries *)

(** [pd.DataFrame(summary)]: one row per summary. *)
Definition Table := list dict.

(** A folder is given by the files that [Path(folder).rglob("*.csv")] finds,
    in the order it finds them. *)
Definition create_summary_table_from_folder (folder : list File) : res Table :=
  traverse get_stream_summary folder.

(** [pd.concat] refuses an empty list of frames. *)
Definition create_summary_table_from_multiple_folders (folders : list (list File)) : res Table :=
  tables <- traverse create_summary_table_from_folder folders ;;
  match tables with
  | [] => Raise ValueError
  | _ => Ok (concat tables)
  end.

(** [df.columns]: the keys of the summaries, which all have the same keys. *)
Definition columns (df : Table) : list string :=
  match df with
  | [] => []
  | row :: _ => map fst row
  end.

(** [df[column]] *)
Definition column (df : Table) (c : string) : list (option value) :=
  map (fun row => dict_get row c) df.

Inductive dtype : Type := int64 | float64 | object.

Definition is_int (cell : option value) : bool :=
  match cell with Some (VInt _) => true | _ => false end.

Definition is_number (cell : option value) : bool :=
  match cell with Some (VStr _) => false | _ => true end.

(** The dtype pandas infers for a column: integers, numbers (a missing cell
    is NaN), or objects as soon as one cell is a string. *)
Definition dtype_of (cells : list (option value)) : dtype :=
  if forallb is_int cells then int64
  else if forallb is_number cells then float64
  else object.

(** [pd.api.types.is_numeric_dtype] *)
Definition is_numeric_dtype (d : dtype) : bool :=
  match d with object => false | _ => true end.

Definition as_float (cell : option value) : float :=
  match cell with
  | Some (VInt z) => Fl.of_Z z
  | Some (VFloat x) => x
  | _ => nan
  end.

(** The arithmetic mean of a list of numbers, for a given summation. *)
Definition arithmetic_mean (sum : list float -> float) (xs : list float) : float :=
  (sum xs / Fl.of_Z (Z.of_nat (length xs)))%float.

Section Average.

(** The table library's sum of a float64 array; the order in which it adds
    is left open. *)
Variable Series_sum : list float -> float.

(** [series.mean()]: pandas leaves the NaN cells out ([skipna] is on by
    default) and averages the others. *)
Definition Series_mean (cells : list (option value)) : float :=
  arithmetic_mean Series_sum (filter (fun x => negb (is_nan x)) (map as_float cells)).

Definition calculate_average (df : Table) : Table :=
  let averages :=
    map (fun c =>
           if is_numeric_dtype (dtype_of (column df c))
           then VFloat (Series_mean (column df c))
           else VStr [])
        (columns df) in
  let averages_row := combine (columns df) averages in
  [averages_row].

End Average.


(** ** The command line *)

(** What the script prints: a line of text or a frame. *)
Inductive printed : Type :=
| Text (s : str)
| Frame (df : Table).

Section Main.

(** The sum of the table library, the files that [rglob("*.csv")] finds under
    a folder, the folder of the script and the width of the terminal. *)
Variable Series_sum : list float -> float.
Variable rglob_csv : str -> list File.
Variable FOLDER : str.
Variable terminal_width : nat.

(** [sys.argv[1:] or [FOLDER]] *)
Definition folders_of (argv : list str) : list str :=
  match argv with
  | [] => [FOLDER]
  | _ => argv
  end.

(** The block run as a script, for the arguments [sys.argv[1:]]. *)
Definition main (argv : list str) : res (list printed) :=
  df <- create_summary_table_from_multiple_folders (map rglob_csv (folders_of argv)) ;;
  match df with
  | [] =>
      Ok [Text (lit "You can download stream chat data from `https://www.twitchchatdownloader.com/`")]
  | _ =>
      Ok [Frame df; Text (repeat "-"%char terminal_width);
          Frame (calculate_average Series_sum df)]
  end.

End Main.

(** ** Notions used in the statements *)

Import Re.

(** *** Messages *)

Definition no_newline (s : str) : bool :=
  forallb (fun a => negb (Ascii.eqb a newline)) s.

(** The phrase the gift pattern looks for, with tier digit [d]. *)
Definition gift_phrase (d : ascii) : str :=
  lit " gifted a Tier " ++ d :: lit " sub to".

(** [pre ++ "Cheer" ++ ds ++ post] shows a whole-word token [Cheer<ds>]. *)
Definition cheer_token (pre ds post : str) : Prop :=
  word_before (prev_after None pre) = false /\ ds <> [] /\
  forallb is_digit ds = true /\ word_here post = false.


(** The rules as the specification lists them, in priority order: a pattern
    and the value a match of it stands for. *)
Definition subscription_rules : list (regex * (Match -> str * Z)) :=
  [(_SUBSCRIBE_PRIME_REGEX, fun m => (lit "prime", int (group m 1)));
   (_SUBSCRIBE_PRIME_WITHOUT_STREAK_REGEX, fun _ => (lit "prime", 0%Z));
   (_SUBSCRIBE_TIER_REGEX, fun m => (lit "tier_" ++ group m 1, int (group m 2)));
   (_SUBSCRIBE_TIER_WITHOUT_STREAK_REGEX, fun m => (lit "tier_" ++ group m 1, int (group m 2)));
   (_SUBSCRIBE_TIER_FIRST_SUBSCRIPTION_REGEX, fun m => (lit "tier_" ++ group m 1, 0%Z))].

Definition streak_message : str :=
  lit "X subscribed at Tier 2. They've subscribed for 5 months, currently on a 3 month streak!".

(** A user name holds no white space. *)
Definition is_user_name (name : str) : bool := forallb (fun a => negb (is_space a)) name.

(** A decimal numeral: one digit or more. *)
Definition is_numeral (n : str) : bool :=
  match n with [] => false | _ => forallb is_digit n end.

(** A resubscription notice of the Prime family that carries a streak clause. *)
Definition prime_streak_message (name M S : str) : str :=
  name ++ lit " subscribed with Prime. They've subscribed for " ++ M
       ++ lit " months, currently on a " ++ S ++ lit " month streak!".

(** The Tier notice with the same clauses. *)
Definition tier_streak_message (name : str) (T : ascii) (M S : str) : str :=
  name ++ lit " subscribed at Tier " ++ [T] ++ lit ". They've subscribed for " ++ M
       ++ lit " months, currently on a " ++ S ++ lit " month streak!".

(** *** The programs of the patterns after their leading [.*?] *)

Definition gift_tail : regex := Eval vm_compute in tl _GIFT_DONATION_REGEX.

Definition bits_body : regex := Eval vm_compute in _BITS_REGEX.

Definition prime_tail : regex := Eval vm_compute in tl _SUBSCRIBE_PRIME_REGEX.
Definition prime_bare_tail : regex := Eval vm_compute in tl _SUBSCRIBE_PRIME_WITHOUT_STREAK_REGEX.

Definition tier_tail : regex := Eval vm_compute in tl _SUBSCRIBE_TIER_REGEX.

(** *** Lines and files *)

(** A data line as the chat exporter writes it: three comma-free fields and
    the message inside a one-character and two-character wrapper. *)
Definition data_line (a b c : str) (q1 : ascii) (body : str) (q2 q3 : ascii) : str :=
  a ++ ","%char :: b ++ ","%char :: c ++ ","%char :: q1 :: body ++ [q2; q3].

(** Example chat logs. *)
Definition header_line : str := lit "time,user_name,user_color,message" ++ [newline].

Definition chat_line (t user color msg : string) : str :=
  lit t ++ lit "," ++ lit user ++ lit "," ++ lit color ++ lit ","
    ++ dquote :: lit msg ++ [dquote; newline].


(** One message at second 0. *)
Definition zero_time_stream : File :=
  {| name := lit "twitch-chat-123456_a.csv";
     lines := [header_line; chat_line "0" "Bob" "#fff" "hi, there"] |}.

Definition example_stream : File :=
  {| name := lit "twitch-chat-77_b.csv";
     lines := [header_line;
               chat_line "10" "Bob" "#fff" "hi, there";
               chat_line "1000" "alice" "" "Cheer250 wow";
               chat_line "500" "BOB" "#fff" "bob subscribed with Prime.";
               chat_line "700" "carl" "#fff" "carl gifted a Tier 1 sub to bob!"] |}.

(** *** Revenue *)


Definition counts (donated_1 donated_2 donated_3 prime subs_1 subs_2 subs_3 bits : Z) : dict :=
  [("donated_tier_1", VInt donated_1); ("donated_tier_2", VInt donated_2);
   ("donated_tier_3", VInt donated_3); ("subscribed_prime", VInt prime);
   ("subscribed_tier_1", VInt subs_1); ("subscribed_tier_2", VInt subs_2);
   ("subscribed_tier_3", VInt subs_3); ("total_bits", VInt bits)]%string.

Definition count_keys : list string :=
  ["donated_tier_1"; "donated_tier_2"; "donated_tier_3"; "subscribed_prime";
   "subscribed_tier_1"; "subscribed_tier_2"; "subscribed_tier_3"]%string.

(** *** Summaries *)

(** The dict that [get_stream_summary] builds from a frame with rows. *)
Definition summary_of (chat_id : str) (df : DataFrame) (t : Z) : dict :=
  let donated_sub := add_column_sub_gifts df in
  let subscription_type := fst (List.split (map (fun r => _get_subscription_type (message r)) df)) in
  let hours := (Fl.of_Z t / 3600)%float in
  let d1 := count_int donated_sub 1 in
  let d2 := count_int donated_sub 2 in
  let d3 := count_int donated_sub 3 in
  let sp := count_str subscription_type "prime" in
  let s1 := count_str subscription_type "tier_1" in
  let s2 := count_str subscription_type "tier_2" in
  let s3 := count_str subscription_type "tier_3" in
  let tb := fold_left Z.add (add_column_bits df) 0%Z in
  let revenue :=
    (Fl.of_Z (d1 * 5 + d2 * 10 + d3 * 25 + sp * 5 + s1 * 5 + s2 * 10 + s3 * 25) / 2
     + Fl.of_Z tb * 0.01)%float in
  [("chat_id", VStr chat_id);
   ("messages_per_user",
     VFloat (Fl.py_round1 (Fl.of_Z (Z.of_nat (length df)) / Fl.of_Z (unique_users df))));
   ("stream_time_in_hours", VFloat (Fl.np_round1 hours));
   ("unique_users", VInt (unique_users df));
   ("total_messages", VInt (Z.of_nat (length df)));
   ("donated_tier_1", VInt d1); ("donated_tier_2", VInt d2); ("donated_tier_3", VInt d3);
   ("subscribed_prime", VInt sp); ("subscribed_tier_1", VInt s1);
   ("subscribed_tier_2", VInt s2); ("subscribed_tier_3", VInt s3);
   ("total_bits", VInt tb);
   ("revenue", VFloat revenue);
   ("revenue_per_hour", VFloat (revenue / hours));
   ("revenue_per_user", VFloat (revenue / Fl.of_Z (unique_users df)))]%string.



(** *** The other notices, programs and files *)

Definition tier_tenure_tail : regex := Eval vm_compute in tl _SUBSCRIBE_TIER_WITHOUT_STREAK_REGEX.
Definition tier_first_tail : regex := Eval vm_compute in tl _SUBSCRIBE_TIER_FIRST_SUBSCRIPTION_REGEX.

(** The program of the pattern that finds the chat id in a file name. *)
Definition chat_id_program : regex := Eval vm_compute in compile "twitch-chat-(\d+)_".

(** The notices without a streak clause. *)
Definition prime_tenure_message (name M : str) : str :=
  name ++ lit " subscribed with Prime. They've subscribed for " ++ M ++ lit " months!".

Definition prime_first_message (name : str) : str :=
  name ++ lit " subscribed with Prime.".

Definition tier_tenure_message (name : str) (T : ascii) (M : str) : str :=
  name ++ lit " subscribed at Tier " ++ [T] ++ lit ". They've subscribed for " ++ M
       ++ lit " months!".

Definition tier_first_message (name : str) (T : ascii) : str :=
  name ++ lit " subscribed at Tier " ++ [T] ++ lit ".".

(** [name] shows the chat id [ds] after [pre]. *)
Definition chat_id_marker (name pre ds post : str) : Prop :=
  name = pre ++ lit "twitch-chat-" ++ ds ++ "_"%char :: post /\ is_numeral ds = true.

(** What the chat exporter writes for one message: the second, the user, the
    colour and the text. *)
Definition entry : Type := str * str * str * str.

Definition entry_line (e : entry) : str :=
  let '(t, user, color, msg) := e in data_line t user color dquote msg dquote newline.

(** The row that stands for an entry in the frame. *)
Definition entry_row (e : entry) : ChatEvent :=
  let '(t, user, _, msg) := e in {| time := int t; user_name := lower user; message := msg |}.

Definition well_formed (e : entry) : Prop :=
  let '(t, user, color, _) := e in
  is_numeral t = true /\ ~ In ","%char user /\ ~ In ","%char color.

(** One row of a frame whose header is the exporter's. *)
Definition standard_row (r : list str) : res ChatEvent :=
  t <- to_numeric (nth 0 r []) ;;
  Ok {| time := t; user_name := lower (nth 1 r []); message := nth 3 r [] |}.

(** The example stream with its lines in another order. *)
Definition example_stream_reordered : File :=
  {| name := lit "twitch-chat-77_b.csv";
     lines := [header_line;
               chat_line "700" "carl" "#fff" "carl gifted a Tier 1 sub to bob!";
               chat_line "10" "Bob" "#fff" "hi, there";
               chat_line "500" "BOB" "#fff" "bob subscribed with Prime.";
               chat_line "1000" "alice" "" "Cheer250 wow"] |}.

(** The keys of a summary, in the order in which they are set. *)
Definition summary_keys : list string :=
  ["chat_id"; "messages_per_user"; "stream_time_in_hours"; "unique_users"; "total_messages";
   "donated_tier_1"; "donated_tier_2"; "donated_tier_3";
   "subscribed_prime"; "subscribed_tier_1"; "subscribed_tier_2"; "subscribed_tier_3";
   "total_bits"; "revenue"; "revenue_per_hour"; "revenue_per_user"]%string.

(** *** The patterns as described, raw lines and modest numerals *)



(** A data line as [split] sees it: three fields without a comma and, after
    the third comma, the rest of the line. *)
Definition raw_line (e : entry) : str :=
  let '(t, user, color, field) := e in
  t ++ ","%char :: user ++ ","%char :: color ++ ","%char :: field.

(** The row read from such a line: the last field without its first
    character and its last two. *)
Definition raw_row (e : entry) : ChatEvent :=
  let '(t, user, _, field) := e in
  {| time := int t; user_name := lower user;
     message := firstn (length field - 3) (skipn 1 field) |}.

(** The entry whose last field is the message in the exporter's wrapper. *)
Definition wrapped (e : entry) : entry :=
  let '(t, user, color, msg) := e in (t, user, color, dquote :: msg ++ [dquote; newline]).



(** The longest run of digits in a text, given the length of the run that
    ends where the text starts. *)
Fixpoint digit_runs (run : nat) (s : str) : nat :=
  match s with
  | [] => run
  | a :: s' => if is_digit a then digit_runs (S run) s' else Nat.max run (digit_runs 0 s')
  end.

(** An entry whose numerals fit a 64-bit integer: the time and every run of
    digits in the message have at most 18 digits. *)
Definition modest (e : entry) : bool :=
  let '(t, _, _, msg) := e in
  (Nat.leb (length t) 18 && Nat.leb (digit_runs 0 msg) 18)%bool.

(** ** The matching engine *)

Lemma scan_eq ok k prev pos rest mk :
  scan ok k prev pos rest mk =
  match k prev pos rest mk with
  | Some r => Some r
  | None =>
      match rest with
      | a :: rest' => if ok a then scan ok k (Some a) (S pos) rest' mk else None
      | [] => None
      end
  end.
Proof. destruct rest; reflexivity. Qed.

Lemma max_plus_eq c k prev pos rest mk :
  max_plus c k prev pos rest mk =
  match rest with
  | a :: rest' =>
      if charset_mem c a then
        match max_plus c k (Some a) (S pos) rest' mk with
        | Some r => Some r
        | None => k (Some a) (S pos) rest' mk
        end
      else None
  | [] => None
  end.
Proof. destruct rest; reflexivity. Qed.

(** What a successful scan found: the shortest accepted prefix after which the
    continuation succeeds. *)
Lemma scan_inv ok k : forall rest prev pos mk r,
  scan ok k prev pos rest mk = Some r ->
  exists s1 s2, rest = s1 ++ s2 /\ forallb ok s1 = true /\
    k (prev_after prev s1) (pos + length s1) s2 mk = Some r /\
    (forall t1 a t2, s1 = t1 ++ a :: t2 ->
       k (prev_after prev t1) (pos + length t1) (a :: t2 ++ s2) mk = None).
Proof.
  induction rest as [|a rest IH]; intros prev pos mk r H; rewrite scan_eq in H.
  - destruct (k prev pos [] mk) eqn:E; [|discriminate].
    exists [], []. simpl. rewrite Nat.add_0_r. repeat split; try congruence.
    intros [|] ? ? ?; discriminate.
  - destruct (k prev pos (a :: rest) mk) eqn:E.
    + exists [], (a :: rest). simpl. rewrite Nat.add_0_r. repeat split; try congruence.
      intros [|] ? ? ?; discriminate.
    + destruct (ok a) eqn:Ha; [|discriminate].
      destruct (IH _ _ _ _ H) as (s1 & s2 & -> & Hok & Hk & Hmin).
      exists (a :: s1), s2. simpl. rewrite Ha, <- plus_n_Sm. repeat split; auto.
      intros [|b t1] c t2 Heq; simpl in Heq; injection Heq as -> ->.
      * simpl. now rewrite Nat.add_0_r.
      * simpl. rewrite <- plus_n_Sm. now apply Hmin.
Qed.

(** A failed scan: the continuation fails after every accepted prefix. *)
Lemma scan_none ok k : forall rest prev pos mk,
  scan ok k prev pos rest mk = None ->
  forall s1 s2, rest = s1 ++ s2 -> forallb ok s1 = true ->
  k (prev_after prev s1) (pos + length s1) s2 mk = None.
Proof.
  induction rest as [|a rest IH]; intros prev pos mk H s1 s2 Heq Hok;
    rewrite scan_eq in H.
  - destruct s1; [|discriminate]. simpl in *. subst s2. rewrite Nat.add_0_r.
    destruct (k prev pos [] mk); congruence.
  - destruct (k prev pos (a :: rest) mk) eqn:E; [discriminate|].
    destruct s1 as [|b s1]; simpl in *.
    + subst s2. now rewrite Nat.add_0_r.
    + injection Heq as <- ->. apply andb_prop in Hok as [Hb Hok]. rewrite Hb in H.
      rewrite <- plus_n_Sm. now apply (IH _ _ _ H).
Qed.

Lemma scan_none_intro ok k rest prev pos mk :
  (forall s1 s2, rest = s1 ++ s2 -> forallb ok s1 = true ->
     k (prev_after prev s1) (pos + length s1) s2 mk = None) ->
  scan ok k prev pos rest mk = None.
Proof.
  intros H. destruct (scan ok k prev pos rest mk) eqn:E; [|reflexivity].
  destruct (scan_inv _ _ _ _ _ _ _ E) as (s1 & s2 & Heq & Hok & Hk & _).
  rewrite (H _ _ Heq Hok) in Hk. discriminate.
Qed.

(** The scan succeeds as soon as the continuation succeeds after some
    accepted prefix. *)
Lemma scan_some ok k s1 s2 prev pos mk r :
  forallb ok s1 = true ->
  k (prev_after prev s1) (pos + length s1) s2 mk = Some r ->
  exists r', scan ok k prev pos (s1 ++ s2) mk = Some r'.
Proof.
  intros Hok Hk. destruct (scan ok k prev pos (s1 ++ s2) mk) eqn:E; [eauto|].
  rewrite (scan_none _ _ _ _ _ _ E s1 s2 eq_refl Hok) in Hk. discriminate.
Qed.

(** The greedy loop read a non-empty run of characters of the set. *)
Lemma max_plus_inv c k : forall rest prev pos mk r,
  max_plus c k prev pos rest mk = Some r ->
  exists ds rest', rest = ds ++ rest' /\ ds <> [] /\
    forallb (charset_mem c) ds = true /\
    k (prev_after prev ds) (pos + length ds) rest' mk = Some r.
Proof.
  induction rest as [|a rest IH]; intros prev pos mk r H; rewrite max_plus_eq in H;
    [discriminate|].
  destruct (charset_mem c a) eqn:Ha; [|discriminate].
  destruct (max_plus c k (Some a) (S pos) rest mk) eqn:E.
  - injection H as ->.
    destruct (IH _ _ _ _ E) as (ds & rest' & -> & _ & Hds & Hk).
    exists (a :: ds), rest'. simpl. rewrite Ha, <- plus_n_Sm. repeat split; auto.
    discriminate.
  - exists [a], rest. simpl. rewrite Ha, Nat.add_1_r. repeat split; auto. discriminate.
Qed.

Lemma run_one_inv c p prev pos rest mk r :
  run (One c :: p) prev pos rest mk = Some r ->
  exists a rest', rest = a :: rest' /\ charset_mem c a = true /\
    run p (Some a) (S pos) rest' mk = Some r.
Proof.
  simpl. destruct rest as [|a rest]; [discriminate|].
  destruct (charset_mem c a) eqn:Ha; [|discriminate]. eauto.
Qed.

Lemma run_lit_inv b p prev pos rest mk r :
  run (One (Literal b) :: p) prev pos rest mk = Some r ->
  exists rest', rest = b :: rest' /\ run p (Some b) (S pos) rest' mk = Some r.
Proof.
  intros H. apply run_one_inv in H as (a & rest' & -> & Ha & H).
  simpl in Ha. apply Ascii.eqb_eq in Ha as ->. eauto.
Qed.

Lemma run_lit_cons b p prev pos rest mk :
  run (One (Literal b) :: p) prev pos (b :: rest) mk = run p (Some b) (S pos) rest mk.
Proof. simpl. now rewrite Ascii.eqb_refl. Qed.

Lemma run_one_cons c p prev pos a rest mk :
  charset_mem c a = true ->
  run (One c :: p) prev pos (a :: rest) mk = run p (Some a) (S pos) rest mk.
Proof. simpl. now intros ->. Qed.

Lemma run_mark i p prev pos rest mk :
  run (Mark i :: p) prev pos rest mk = run p prev pos rest ((i, pos) :: mk).
Proof. reflexivity. Qed.

Lemma run_boundary p prev pos rest mk :
  run (WordBoundary :: p) prev pos rest mk =
  if at_boundary prev rest then run p prev pos rest mk else None.
Proof. reflexivity. Qed.

Lemma run_max_plus c p prev pos rest mk :
  run (MaxPlus c :: p) prev pos rest mk = max_plus c (run p) prev pos rest mk.
Proof. reflexivity. Qed.

Lemma boundary_before_word prev a rest :
  is_word a = true -> at_boundary prev (a :: rest) = negb (word_before prev).
Proof. unfold at_boundary. simpl word_here. intros ->. now destruct (word_before prev). Qed.

Lemma digit_is_word a : is_digit a = true -> is_word a = true.
Proof. destruct a as [[] [] [] [] [] [] [] []]; vm_compute; congruence. Qed.

(** The group delimited by two marks is the text between them. *)
Lemma group_between pre g suf mk n :
  get_mark (2 * (n - 1)) mk = Some (length pre) ->
  get_mark (2 * (n - 1) + 1) mk = Some (length pre + length g) ->
  group {| subject := pre ++ g ++ suf; group_marks := mk |} n = g.
Proof.
  intros Hb He. unfold group. simpl subject. simpl group_marks. rewrite Hb, He.
  replace (length pre + length g - length pre) with (length g) by lia.
  rewrite skipn_app, skipn_all, Nat.sub_diag. simpl.
  rewrite firstn_app, firstn_all, Nat.sub_diag. simpl. apply app_nil_r.
Qed.






(** The greedy loop fails at once on a character outside the set. *)
Lemma max_plus_stops c k prev pos rest mk :
  match rest with a :: _ => charset_mem c a = false | [] => True end ->
  max_plus c k prev pos rest mk = None.
Proof. destruct rest as [|a rest]; [reflexivity|]. intros H. simpl. now rewrite H. Qed.

(** The greedy loop keeps a whole run of digits when the continuation
    accepts what follows it. *)
Lemma max_plus_greedy k : forall ds rest prev pos mk r,
  ds <> [] -> forallb is_digit ds = true ->
  match rest with a :: _ => is_digit a = false | [] => True end ->
  k (prev_after prev ds) (pos + length ds) rest mk = Some r ->
  max_plus Digit k prev pos (ds ++ rest) mk = Some r.
Proof.
  induction ds as [|a ds IH]; intros rest prev pos mk r Hne Hds Hrest Hk; [congruence|].
  simpl in Hds. apply andb_prop in Hds as [Ha Hds].
  simpl app. rewrite max_plus_eq. simpl charset_mem. rewrite Ha.
  destruct ds as [|b ds].
  - simpl app. rewrite (max_plus_stops Digit k (Some a) (S pos) rest mk Hrest).
    simpl in Hk. now rewrite Nat.add_1_r in Hk.
  - rewrite (IH rest (Some a) (S pos) mk r); [reflexivity|discriminate|assumption|assumption|].
    simpl length in Hk |- *. rewrite <- plus_n_Sm in Hk. exact Hk.
Qed.

(** The programs of the patterns: an unescaped dot stands for any character,
    also where the message shows a full stop. *)
Lemma gift_opcodes :
  _GIFT_DONATION_REGEX =
  MinStar AnyChar :: literal " gifted a Tier " ++ [Mark 0; One Digit; Mark 1]
    ++ literal " sub to".
Proof. reflexivity. Qed.

Lemma prime_opcodes :
  _SUBSCRIBE_PRIME_REGEX =
  MinStar AnyChar :: literal " subscribed with Prime" ++ [One AnyChar]
    ++ literal " They've subscribed for " ++ [Mark 0; MaxPlus Digit; Mark 1]
    ++ literal " months!"
  /\ _SUBSCRIBE_PRIME_WITHOUT_STREAK_REGEX =
     MinStar AnyChar :: literal " subscribed with Prime" ++ [One AnyChar].
Proof. split; reflexivity. Qed.

Lemma tier_opcodes :
  _SUBSCRIBE_TIER_REGEX =
  MinStar AnyChar :: literal " subscribed at Tier " ++ [Mark 0; One Digit; Mark 1; One AnyChar]
    ++ literal " They've subscribed for " ++ [Mark 2; MaxPlus Digit; Mark 3]
    ++ literal " months, currently on a " ++ [Mark 4; MaxPlus Digit; Mark 5]
    ++ literal " month streak!"
  /\ _SUBSCRIBE_TIER_WITHOUT_STREAK_REGEX =
     MinStar AnyChar :: literal " subscribed at Tier " ++ [Mark 0; One Digit; Mark 1; One AnyChar]
       ++ literal " They've subscribed for " ++ [Mark 2; MaxPlus Digit; Mark 3]
       ++ literal " months!"
  /\ _SUBSCRIBE_TIER_FIRST_SUBSCRIPTION_REGEX =
     MinStar AnyChar :: literal " subscribed at Tier " ++ [Mark 0; One Digit; Mark 1; One AnyChar].
Proof. repeat split; reflexivity. Qed.

Lemma bits_opcodes :
  _BITS_REGEX =
  WordBoundary :: literal "Cheer" ++ [Mark 0; MaxPlus Digit; Mark 1; WordBoundary].
Proof. reflexivity. Qed.

(** Inverting the run of a straight-line program step by step, and closing
    equations between lists of marks. *)
Ltac step_run H :=
  lazymatch type of H with
  | run (One (Literal _) :: _) _ _ _ _ = Some _ =>
      let rest := fresh "rest" in
      apply run_lit_inv in H; destruct H as (rest & -> & H)
  | run (One _ :: _) _ _ _ _ = Some _ =>
      let a := fresh "a" in let rest := fresh "rest" in let Ha := fresh "Ha" in
      apply run_one_inv in H; destruct H as (a & rest & -> & Ha & H)
  | run (Mark _ :: _) _ _ _ _ = Some _ => rewrite run_mark in H
  end.

Ltac marks_eq :=
  repeat match goal with
         | |- Some _ = Some _ => f_equal
         | |- _ :: _ = _ :: _ => f_equal
         | |- (_, _) = (_, _) => f_equal
         end; try reflexivity; lia.

(** ** Lists and characters *)

Lemma app_split_before {A} (s1 s2 p x : list A) :
  s1 ++ s2 = p ++ x -> length p < length s1 ->
  exists a t, s1 = p ++ a :: t /\ x = a :: t ++ s2.
Proof.
  revert p. induction s1 as [|b s1 IH]; intros p H Hlen; simpl in *; [lia|].
  destruct p as [|c p]; simpl in *.
  - subst x. now exists b, s1.
  - injection H as <- H. destruct (IH p H) as (a & t & -> & ->); [lia|].
    now exists a, t.
Qed.

Lemma app_same_length {A} : forall (a b c d : list A),
  a ++ b = c ++ d -> length a = length c -> a = c /\ b = d.
Proof.
  induction a as [|x a IH]; intros b [|y c] d H Hlen; simpl in *; try discriminate.
  - auto.
  - injection H as -> H. destruct (IH b c d H) as [-> ->]; [lia|auto].
Qed.

Lemma forallb_true {A} (l : list A) : forallb (fun _ => true) l = true.
Proof. induction l; simpl; auto. Qed.

Lemma forallb_imp {A} (f g : A -> bool) l :
  (forall a, f a = true -> g a = true) -> forallb f l = true -> forallb g l = true.
Proof.
  intros Hfg. induction l as [|a l IH]; simpl; [auto|].
  intros H. apply andb_prop in H as [Ha Hl]. now rewrite (Hfg _ Ha), IH.
Qed.


Lemma last_app_r {A} (d : A) (l1 l2 : list A) : l2 <> [] -> last (l1 ++ l2) d = last l2 d.
Proof.
  intros Hne. induction l1 as [|a l1 IH]; [reflexivity|].
  simpl app. rewrite <- IH. simpl.
  destruct (l1 ++ l2) eqn:E; [|reflexivity].
  apply app_eq_nil in E as [_ ->]. congruence.
Qed.

(** The first occurrence of a character: where it can stand when the text is
    also [n ++ body ++ [x]] and [body] is free of [x]. *)
Lemma first_occurrence (x : ascii) : forall n A suf body,
  A ++ x :: suf = n ++ body ++ [x] ->
  forallb (fun a => negb (Ascii.eqb a x)) body = true ->
  (exists t, n = A ++ x :: t) \/ (A = n ++ body /\ suf = []).
Proof.
  induction n as [|b n IH]; intros A suf body H Hb.
  - right. simpl in *. revert A H. induction body as [|c body IHb]; intros A H.
    + destruct A as [|a A]; simpl in H.
      * now injection H as ->.
      * injection H as _ H. destruct A; discriminate.
    + simpl in Hb. apply andb_prop in Hb as [Hc Hb].
      destruct A as [|a A]; simpl in H.
      * injection H as -> _. rewrite Ascii.eqb_refl in Hc. discriminate.
      * injection H as -> H. destruct (IHb Hb _ H) as [-> ->]. auto.
  - destruct A as [|a A]; simpl in H.
    + injection H as -> _. left. now exists n.
    + injection H as -> H. destruct (IH _ _ _ H Hb) as [(t & ->)|(-> & ->)].
      * left. now exists t.
      * right. auto.
Qed.

(** A character absent from [body] cannot be found past [n] in [n ++ body]. *)
Lemma occurrence_in_prefix (x : ascii) : forall n A suf body,
  A ++ x :: suf = n ++ body ->
  forallb (fun a => negb (Ascii.eqb a x)) body = true ->
  exists t, n = A ++ x :: t.
Proof.
  induction n as [|b n IH]; intros A suf body H Hb.
  - simpl in H. exfalso. subst body. rewrite forallb_app in Hb.
    apply andb_prop in Hb as [_ Hb]. simpl in Hb. rewrite Ascii.eqb_refl in Hb. discriminate.
  - destruct A as [|a A]; simpl in H.
    + injection H as -> _. now exists n.
    + injection H as -> H. destruct (IH _ _ _ H Hb) as (t & ->). now exists t.
Qed.

Lemma digit_value_range d : is_digit d = true -> (0 <= digit_value d <= 9)%Z.
Proof.
  unfold is_digit, in_range, digit_value. intros H.
  apply andb_prop in H as [H1 H2]. apply N.leb_le in H1, H2. lia.
Qed.

Lemma int_single d : int [d] = digit_value d.
Proof. unfold int. simpl. lia. Qed.

Lemma digit_not_bang a : is_digit a = true -> negb (Ascii.eqb a "!") = true.
Proof. destruct a as [[] [] [] [] [] [] [] []]; vm_compute; congruence. Qed.

Lemma digit_not_P a : is_digit a = true -> negb (Ascii.eqb a "P") = true.
Proof. destruct a as [[] [] [] [] [] [] [] []]; vm_compute; congruence. Qed.

Lemma not_space_not_newline a : negb (is_space a) = true -> charset_mem AnyChar a = true.
Proof. destruct a as [[] [] [] [] [] [] [] []]; vm_compute; congruence. Qed.

Lemma is_word_C : is_word "C" = true.
Proof. reflexivity. Qed.

Lemma word_after_digits ds prev :
  ds <> [] -> forallb is_digit ds = true -> word_before (prev_after prev ds) = true.
Proof.
  revert prev. induction ds as [|a ds IH]; intros prev Hne Hds; [congruence|].
  simpl in Hds. apply andb_prop in Hds as [Ha Hds].
  destruct ds as [|b ds].
  - simpl. now apply digit_is_word.
  - change (prev_after prev (a :: b :: ds)) with (prev_after (Some a) (b :: ds)).
    apply IH; [discriminate|assumption].
Qed.

Lemma not_word_not_digit post : word_here post = false ->
  match post with a :: _ => is_digit a = false | [] => True end.
Proof.
  destruct post as [|a post]; simpl; auto. intros H.
  destruct (is_digit a) eqn:E; auto. apply digit_is_word in E. congruence.
Qed.

(** ** The gift-sub classifier *)

Lemma gift_program : _GIFT_DONATION_REGEX = MinStar AnyChar :: gift_tail.
Proof. reflexivity. Qed.

Lemma gift_tail_inv prev pos rest mk r :
  run gift_tail prev pos rest mk = Some r ->
  exists d suf, rest = gift_phrase d ++ suf /\ is_digit d = true /\
    r = (1, 16 + pos) :: (0, 15 + pos) :: mk.
Proof.
  unfold gift_tail. intros H. repeat step_run H.
  simpl in H. injection H as <-. do 2 eexists. split; [|split; [eassumption|reflexivity]].
  reflexivity.
Qed.

Lemma gift_tail_run d suf prev pos mk :
  is_digit d = true ->
  run gift_tail prev pos (gift_phrase d ++ suf) mk = Some ((1, 16 + pos) :: (0, 15 + pos) :: mk).
Proof. intros Hd. unfold gift_tail. simpl. rewrite Hd. reflexivity. Qed.

(** C5 (amended). For every message the gift-sub classifier returns the digit N,
    between 0 and 9, of the leftmost phrase [ gifted a Tier N sub to] when the
    text before that phrase holds no newline, and 0 when no such phrase is
    preceded by newline-free text; [X gifted a Tier 3 sub to Y] gives 3. *)
Theorem gift_tier_of_first_phrase :
  (forall msg,
     (exists pre d suf,
        msg = pre ++ gift_phrase d ++ suf /\ is_digit d = true /\ no_newline pre = true /\
        (forall pre' d' suf', msg = pre' ++ gift_phrase d' ++ suf' -> is_digit d' = true ->
           length pre <= length pre') /\
        _get_donated_sub msg = digit_value d /\ (0 <= digit_value d <= 9)%Z)
     \/
     ((forall pre d suf, msg = pre ++ gift_phrase d ++ suf -> is_digit d = true ->
         no_newline pre = false) /\
      _get_donated_sub msg = 0%Z))
  /\ _get_donated_sub (lit "X gifted a Tier 3 sub to Y") = 3%Z.
Proof.
  split; [|reflexivity].
  intros msg. unfold _get_donated_sub, match_. rewrite gift_program.
  change (run (MinStar AnyChar :: gift_tail) None 0 msg [])
    with (scan (charset_mem AnyChar) (run gift_tail) None 0 msg []).
  destruct (scan (charset_mem AnyChar) (run gift_tail) None 0 msg []) as [m|] eqn:E.
  - left. apply scan_inv in E as (s1 & s2 & -> & Hok & Hk & Hmin).
    apply gift_tail_inv in Hk as (d & suf & -> & Hd & ->).
    exists s1, d, suf.
    split; [reflexivity|]. split; [assumption|]. split; [exact Hok|].
    split; [|split; [|now apply digit_value_range]].
    + intros pre' d' suf' Heq Hd'.
      destruct (Nat.le_gt_cases (length s1) (length pre')) as [|Hlt]; [assumption|].
      destruct (app_split_before _ _ _ _ Heq Hlt) as (a & t & -> & Hx).
      specialize (Hmin pre' a t eq_refl). rewrite <- Hx in Hmin.
      rewrite gift_tail_run in Hmin by assumption. discriminate.
    + cbv beta iota delta [option_map].
      replace (s1 ++ gift_phrase d ++ suf)
        with ((s1 ++ lit " gifted a Tier ") ++ [d] ++ lit " sub to" ++ suf)
        by (unfold gift_phrase; rewrite <- !app_assoc; reflexivity).
      rewrite group_between, int_single; [reflexivity| |];
        rewrite length_app; simpl; do 2 f_equal; lia.
  - right. split; [|reflexivity].
    intros pre d suf -> Hd. destruct (no_newline pre) eqn:Hn; [|reflexivity].
    pose proof (scan_none _ _ _ _ _ _ E pre _ eq_refl Hn) as H.
    rewrite gift_tail_run in H by assumption. discriminate.
Qed.

(** A tier digit outside 1-3 is returned as it is: the result is not always
    one of 0, 1, 2 and 3. *)
Lemma gift_tier_outside_one_to_three :
  _get_donated_sub (lit "X gifted a Tier 7 sub to Y") = 7%Z /\
  ~ (forall msg, In (_get_donated_sub msg) [0; 1; 2; 3]%Z).
Proof.
  split; [reflexivity|].
  intros H. specialize (H (lit "X gifted a Tier 7 sub to Y")).
  vm_compute in H. intuition discriminate.
Qed.

(** ** The bits classifier *)

Lemma max_plus_digits_run ds post prev pos mk :
  ds <> [] -> forallb is_digit ds = true -> word_here post = false ->
  max_plus Digit (run [Mark 1; WordBoundary]) prev pos (ds ++ post) mk =
  Some ((1, pos + length ds) :: mk).
Proof.
  intros Hne Hds Hpost.
  apply max_plus_greedy; [assumption|assumption|now apply not_word_not_digit|].
  rewrite run_mark, run_boundary. unfold at_boundary.
  rewrite word_after_digits, Hpost by assumption. reflexivity.
Qed.

Lemma bits_program : _BITS_REGEX = bits_body.
Proof. reflexivity. Qed.

Lemma bits_at_inv prev pos rest r :
  run _BITS_REGEX prev pos rest [] = Some r ->
  exists ds post, rest = lit "Cheer" ++ ds ++ post /\ word_before prev = false /\
    ds <> [] /\ forallb is_digit ds = true /\ word_here post = false /\
    r = [(1, pos + 5 + length ds); (0, pos + 5)].
Proof.
  rewrite bits_program. unfold bits_body. rewrite run_boundary.
  destruct (at_boundary prev rest) eqn:Hb; [|discriminate].
  intros H. repeat step_run H.
  rewrite run_max_plus in H.
  apply max_plus_inv in H as (ds & post & -> & Hne & Hds & H).
  rewrite run_mark, run_boundary in H.
  destruct (at_boundary (prev_after (Some "r"%char) ds) post) eqn:Hb2; [|discriminate].
  injection H as <-.
  exists ds, post. rewrite boundary_before_word in Hb by exact is_word_C.
  unfold at_boundary in Hb2. rewrite (word_after_digits _ _ Hne Hds) in Hb2.
  split; [reflexivity|]. split; [now destruct (word_before prev)|].
  split; [assumption|]. split; [exact Hds|].
  split; [now destruct (word_here post)|].
  repeat (f_equal; try lia).
Qed.

Lemma bits_at_run prev pos ds post :
  word_before prev = false -> ds <> [] -> forallb is_digit ds = true ->
  word_here post = false ->
  run _BITS_REGEX prev pos (lit "Cheer" ++ ds ++ post) [] =
  Some [(1, pos + 5 + length ds); (0, pos + 5)].
Proof.
  intros Hp Hne Hds Hpost.
  rewrite bits_program. unfold bits_body.
  change (lit "Cheer" ++ ds ++ post) with ("C" :: "h" :: "e" :: "e" :: "r" :: ds ++ post)%char.
  rewrite run_boundary, boundary_before_word, Hp by exact is_word_C.
  cbv beta iota delta [negb].
  rewrite !run_lit_cons, run_mark, run_max_plus.
  rewrite max_plus_digits_run by assumption.
  repeat (f_equal; try lia).
Qed.

(** C6. For every message the bits classifier returns the integer N of the
    leftmost whole-word token [CheerN] (N one or more digits, no word character
    right before [Cheer] nor right after the digits), and 0 when the message
    has no such token; later tokens are not added: [Cheer50 and Cheer75] gives
    50 and [Great play! Cheer100 nice one] gives 100. *)
Theorem bits_of_first_cheer_token :
  (forall msg,
     (exists pre ds post,
        msg = pre ++ lit "Cheer" ++ ds ++ post /\ cheer_token pre ds post /\
        (forall pre' ds' post', msg = pre' ++ lit "Cheer" ++ ds' ++ post' ->
           cheer_token pre' ds' post' -> length pre <= length pre') /\
        _get_bits msg = int ds)
     \/
     ((forall pre ds post, msg = pre ++ lit "Cheer" ++ ds ++ post -> ~ cheer_token pre ds post) /\
      _get_bits msg = 0%Z))
  /\ _get_bits (lit "Cheer50 and Cheer75") = 50%Z
  /\ _get_bits (lit "Great play! Cheer100 nice one") = 100%Z.
Proof.
  split; [|split; reflexivity].
  intros msg. unfold _get_bits, search.
  set (k := fun (prev : option ascii) (pos : nat) (rest : str) (_ : marks) =>
              run _BITS_REGEX prev pos rest []).
  destruct (scan (fun _ => true) k None 0 msg []) as [m|] eqn:E.
  - left. apply scan_inv in E as (s1 & s2 & -> & _ & Hk & Hmin).
    unfold k in Hk. apply bits_at_inv in Hk as (ds & post & -> & Hp & Hne & Hds & Hpost & ->).
    exists s1, ds, post. split; [reflexivity|]. split; [now repeat split|]. split.
    + intros pre' ds' post' Heq (Hp' & Hne' & Hds' & Hpost').
      destruct (Nat.le_gt_cases (length s1) (length pre')) as [|Hlt]; [assumption|].
      destruct (app_split_before _ _ _ _ Heq Hlt) as (a & t & -> & Hx).
      specialize (Hmin pre' a t eq_refl). rewrite <- Hx in Hmin. unfold k in Hmin.
      rewrite bits_at_run in Hmin by assumption. discriminate.
    + cbv beta iota delta [option_map].
      replace (s1 ++ lit "Cheer" ++ ds ++ post) with ((s1 ++ lit "Cheer") ++ ds ++ post)
        by (rewrite <- !app_assoc; reflexivity).
      rewrite group_between; [reflexivity| |];
        rewrite length_app; simpl; repeat (f_equal; try lia).
  - right. split; [|reflexivity].
    intros pre ds post -> (Hp & Hne & Hds & Hpost).
    pose proof (scan_none _ _ _ _ _ _ E pre _ eq_refl (forallb_true _)) as H.
    unfold k in H. rewrite bits_at_run in H by assumption. discriminate.
Qed.

(** ** The subscription classifier *)

(** C1. The subscription classifier tries its five patterns in the order Prime with
    tenure, Prime bare, Tier with streak, Tier without streak, Tier first time,
    and the first that matches decides: when rule [i] matches and no earlier
    rule does, the result is the value of rule [i].  The streak message of the
    specification is classified (tier_2, 5): the streak rule matches it with
    the groups 2, 5 and 3, of which the streak 3 is not used; the no-streak
    rule does not match it, and the first-time rule, which matches it and
    stands for (tier_2, 0), is not reached. *)
Theorem subscription_first_match_wins :
  (forall msg i p act m,
     nth_error subscription_rules i = Some (p, act) ->
     match_ p msg = Some m ->
     (forall j q a, j < i -> nth_error subscription_rules j = Some (q, a) ->
        match_ q msg = None) ->
     _get_subscription_type msg = act m)
  /\ _get_subscription_type streak_message = (lit "tier_2", 5%Z)
  /\ (exists m, match_ _SUBSCRIBE_TIER_REGEX streak_message = Some m /\
        group m 1 = lit "2" /\ group m 2 = lit "5" /\ group m 3 = lit "3")
  /\ match_ _SUBSCRIBE_TIER_WITHOUT_STREAK_REGEX streak_message = None
  /\ (exists m, match_ _SUBSCRIBE_TIER_FIRST_SUBSCRIPTION_REGEX streak_message = Some m /\
        (lit "tier_" ++ group m 1, 0%Z) = (lit "tier_2", 0%Z)).
Proof.
  split; [|split; [vm_compute; reflexivity|split; [|split; [vm_compute; reflexivity|]]]].
  - intros msg i p act m Hi Hm Hprev.
    assert (H0 : 0 < i -> match_ _SUBSCRIBE_PRIME_REGEX msg = None)
      by (intros; eapply (Hprev 0); [assumption|reflexivity]).
    assert (H1 : 1 < i -> match_ _SUBSCRIBE_PRIME_WITHOUT_STREAK_REGEX msg = None)
      by (intros; eapply (Hprev 1); [assumption|reflexivity]).
    assert (H2 : 2 < i -> match_ _SUBSCRIBE_TIER_REGEX msg = None)
      by (intros; eapply (Hprev 2); [assumption|reflexivity]).
    assert (H3 : 3 < i -> match_ _SUBSCRIBE_TIER_WITHOUT_STREAK_REGEX msg = None)
      by (intros; eapply (Hprev 3); [assumption|reflexivity]).
    unfold _get_subscription_type.
    destruct i as [|[|[|[|[|i]]]]]; cbn [nth_error subscription_rules] in Hi;
      try (destruct i; discriminate);
      injection Hi as <- <-;
      rewrite ?H0, ?H1, ?H2, ?H3 by lia; rewrite Hm; reflexivity.
  - eexists. split; [vm_compute; reflexivity|]. repeat split.
  - eexists. split; vm_compute; reflexivity.
Qed.








Lemma prime_program : _SUBSCRIBE_PRIME_REGEX = MinStar AnyChar :: prime_tail.
Proof. reflexivity. Qed.

Lemma prime_bare_program :
  _SUBSCRIBE_PRIME_WITHOUT_STREAK_REGEX = MinStar AnyChar :: prime_bare_tail.
Proof. reflexivity. Qed.

Lemma tier_program : _SUBSCRIBE_TIER_REGEX = MinStar AnyChar :: tier_tail.
Proof. reflexivity. Qed.

Lemma prime_tail_inv prev pos rest mk r :
  run prime_tail prev pos rest mk = Some r ->
  exists c ds suf,
    rest = lit " subscribed with Prime" ++ [c] ++ lit " They've subscribed for " ++ ds
           ++ lit " months" ++ "!"%char :: suf.
Proof.
  unfold prime_tail. intros H. repeat step_run H.
  rewrite run_max_plus in H. apply max_plus_inv in H as (ds & t & -> & _ & _ & H).
  repeat step_run H.
  do 3 eexists. reflexivity.
Qed.

Lemma prime_tenure_rule_misses name M S :
  is_user_name name = true -> forallb is_digit M = true -> forallb is_digit S = true ->
  match_ _SUBSCRIBE_PRIME_REGEX (prime_streak_message name M S) = None.
Proof.
  intros Hname HM HS. unfold match_. rewrite prime_program.
  change (run (MinStar AnyChar :: prime_tail)) with (scan (charset_mem AnyChar) (run prime_tail)).
  rewrite scan_none_intro; [reflexivity|].
  intros s1 s2 Heq _.
  destruct (run prime_tail (prev_after None s1) (0 + length s1) s2 []) eqn:E; [|reflexivity].
  exfalso. apply prime_tail_inv in E as (c & ds & suf & ->).
  set (body := lit " subscribed with Prime. They've subscribed for " ++ M
                 ++ lit " months, currently on a " ++ S ++ lit " month streak").
  set (A := s1 ++ lit " subscribed with Prime" ++ [c] ++ lit " They've subscribed for "
               ++ ds ++ lit " months").
  assert (H : A ++ "!"%char :: suf = name ++ body ++ ["!"%char]).
  { unfold A, body. unfold prime_streak_message in Heq.
    rewrite <- !app_assoc. symmetry. exact Heq. }
  assert (Hbody : forallb (fun a => negb (Ascii.eqb a "!")) body = true).
  { unfold body. rewrite !forallb_app.
    rewrite (forallb_imp _ _ _ digit_not_bang HM), (forallb_imp _ _ _ digit_not_bang HS).
    reflexivity. }
  destruct (first_occurrence _ _ _ _ _ H Hbody) as [(t & Hn)|(HA & _)].
  - unfold is_user_name in Hname. rewrite Hn in Hname. unfold A in Hname.
    rewrite <- !app_assoc in Hname. rewrite forallb_app in Hname.
    apply andb_prop in Hname as [_ Hname]. simpl in Hname. discriminate.
  - apply (f_equal (fun l => last l "x"%char)) in HA. unfold A, body in HA.
    rewrite !app_assoc in HA.
    rewrite (last_app_r _ _ (lit " months")) in HA by discriminate.
    rewrite (last_app_r _ _ (lit " month streak")) in HA by discriminate.
    vm_compute in HA. discriminate.
Qed.

Lemma prime_bare_rule_matches name M S :
  is_user_name name = true ->
  exists m, match_ _SUBSCRIBE_PRIME_WITHOUT_STREAK_REGEX (prime_streak_message name M S) = Some m.
Proof.
  intros Hname. unfold match_. rewrite prime_bare_program.
  change (run (MinStar AnyChar :: prime_bare_tail))
    with (scan (charset_mem AnyChar) (run prime_bare_tail)).
  unfold prime_streak_message.
  set (text := lit " subscribed with Prime. They've subscribed for " ++ M
                 ++ lit " months, currently on a " ++ S ++ lit " month streak!").
  assert (Hk : run prime_bare_tail (prev_after None name) (0 + length name) text [] = Some []).
  { unfold prime_bare_tail, text.
    change (lit " subscribed with Prime. They've subscribed for " ++ M
                 ++ lit " months, currently on a " ++ S ++ lit " month streak!")
      with (lit " subscribed with Prime" ++ "."%char :: lit " They've subscribed for " ++ M
                 ++ lit " months, currently on a " ++ S ++ lit " month streak!").
    let l := eval vm_compute in (lit " subscribed with Prime") in
      change (lit " subscribed with Prime") with l.
    cbn [app]. rewrite !run_lit_cons. rewrite run_one_cons by reflexivity.
    reflexivity. }
  destruct (scan_some _ _ _ _ _ _ _ _ (forallb_imp _ _ _ not_space_not_newline Hname) Hk)
    as (r & ->).
  eexists. reflexivity.
Qed.

(** Neither Prime rule matches a Tier notice: it has no " subscribed with
    Prime" after the name. *)
Lemma prime_rules_miss_tier_notice name T M S p :
  is_user_name name = true -> is_digit T = true ->
  forallb is_digit M = true -> forallb is_digit S = true ->
  (forall prev pos rest mk r, run p prev pos rest mk = Some r ->
     exists suf, rest = lit " subscribed with " ++ "P"%char :: suf) ->
  match_ (MinStar AnyChar :: p) (tier_streak_message name T M S) = None.
Proof.
  intros Hname HT HM HS Hp. unfold match_.
  change (run (MinStar AnyChar :: p)) with (scan (charset_mem AnyChar) (run p)).
  rewrite scan_none_intro; [reflexivity|].
  intros s1 s2 Heq _.
  destruct (run p (prev_after None s1) (0 + length s1) s2 []) eqn:E; [|reflexivity].
  exfalso. apply Hp in E as (suf & ->).
  unfold tier_streak_message in Heq.
  assert (H : (s1 ++ lit " subscribed with ") ++ "P"%char :: suf
              = name ++ lit " subscribed at Tier " ++ [T] ++ lit ". They've subscribed for "
                  ++ M ++ lit " months, currently on a " ++ S ++ lit " month streak!")
    by (rewrite <- app_assoc; symmetry; exact Heq).
  apply occurrence_in_prefix in H as (t & Hn).
  - unfold is_user_name in Hname. rewrite Hn, <- !app_assoc, forallb_app in Hname.
    apply andb_prop in Hname as [_ Hname]. simpl in Hname. discriminate.
  - rewrite !forallb_app.
    rewrite (forallb_imp _ _ _ digit_not_P HM), (forallb_imp _ _ _ digit_not_P HS).
    simpl. rewrite (digit_not_P _ HT). reflexivity.
Qed.

Lemma prime_tail_starts prev pos rest mk r :
  run prime_tail prev pos rest mk = Some r ->
  exists suf, rest = lit " subscribed with " ++ "P"%char :: suf.
Proof.
  intros H. apply prime_tail_inv in H as (c & ds & suf & ->). eexists. reflexivity.
Qed.

Lemma prime_bare_tail_starts prev pos rest mk r :
  run prime_bare_tail prev pos rest mk = Some r ->
  exists suf, rest = lit " subscribed with " ++ "P"%char :: suf.
Proof.
  unfold prime_bare_tail. intros H. repeat step_run H. eexists. reflexivity.
Qed.

Lemma tier_tail_starts prev pos rest mk r :
  run tier_tail prev pos rest mk = Some r -> exists suf, rest = " "%char :: suf.
Proof. unfold tier_tail. intros H. step_run H. eauto. Qed.

Lemma tier_tail_run name_end pos T M S :
  is_digit T = true -> M <> [] -> forallb is_digit M = true ->
  S <> [] -> forallb is_digit S = true ->
  run tier_tail name_end pos
    (lit " subscribed at Tier " ++ [T] ++ lit ". They've subscribed for " ++ M
       ++ lit " months, currently on a " ++ S ++ lit " month streak!") []
  = Some [(5, pos + 46 + length M + 24 + length S); (4, pos + 46 + length M + 24);
          (3, pos + 46 + length M); (2, pos + 46); (1, pos + 21); (0, pos + 20)].
Proof.
  intros HT HMne HM HSne HS. unfold tier_tail.
  let l := eval vm_compute in (lit " subscribed at Tier ") in
    change (lit " subscribed at Tier ") with l.
  let l := eval vm_compute in (lit ". They've subscribed for ") in
    change (lit ". They've subscribed for ") with l.
  cbn [app]. rewrite !run_lit_cons, run_mark, (run_one_cons Digit) by exact HT.
  rewrite run_mark, run_one_cons by reflexivity.
  rewrite !run_lit_cons, run_mark, run_max_plus.
  rewrite (max_plus_greedy _ M _ _ _ _
             [(5, pos + 46 + length M + 24 + length S); (4, pos + 46 + length M + 24);
              (3, pos + 46 + length M); (2, pos + 46); (1, pos + 21); (0, pos + 20)]);
    [reflexivity|assumption|assumption|reflexivity|].
  let l := eval vm_compute in (lit " months, currently on a ") in
    change (lit " months, currently on a ") with l.
  cbn [app]. rewrite run_mark, !run_lit_cons, run_mark, run_max_plus.
  rewrite (max_plus_greedy _ S _ _ _ _
             [(5, pos + 46 + length M + 24 + length S); (4, pos + 46 + length M + 24);
              (3, pos + 46 + length M); (2, pos + 46); (1, pos + 21); (0, pos + 20)]);
    [reflexivity|assumption|assumption|reflexivity|].
  let l := eval vm_compute in (lit " month streak!") in
    change (lit " month streak!") with l.
  rewrite run_mark, !run_lit_cons. cbn [run].
  marks_eq.
Qed.

Lemma tier_streak_rule_groups name T M S :
  is_user_name name = true -> is_digit T = true ->
  M <> [] -> forallb is_digit M = true -> S <> [] -> forallb is_digit S = true ->
  exists m, match_ _SUBSCRIBE_TIER_REGEX (tier_streak_message name T M S) = Some m /\
            group m 1 = [T] /\ group m 2 = M.
Proof.
  intros Hname HT HMne HM HSne HS. unfold match_. rewrite tier_program.
  change (run (MinStar AnyChar :: tier_tail)) with (scan (charset_mem AnyChar) (run tier_tail)).
  set (text := lit " subscribed at Tier " ++ [T] ++ lit ". They've subscribed for " ++ M
                 ++ lit " months, currently on a " ++ S ++ lit " month streak!").
  change (tier_streak_message name T M S) with (name ++ text).
  pose proof (tier_tail_run (prev_after None name) (0 + length name) T M S HT HMne HM HSne HS)
    as Hk. fold text in Hk.
  destruct (scan_some _ _ _ _ _ _ _ _ (forallb_imp _ _ _ not_space_not_newline Hname) Hk)
    as (r & Hr).
  rewrite Hr. cbn [option_map].
  apply scan_inv in Hr as (s1 & s2 & Heq & Hok & Hk1 & Hmin).
  assert (Hs1 : s1 = name).
  { destruct (Nat.lt_trichotomy (length s1) (length name)) as [Hlt|[Hlen|Hgt]].
    - destruct (app_split_before _ _ _ _ Heq Hlt) as (a & t & Hn & Hs2).
      apply tier_tail_starts in Hk1 as (suf & Hsp). rewrite Hs2 in Hsp.
      injection Hsp as -> _. unfold is_user_name in Hname.
      rewrite Hn, forallb_app in Hname. apply andb_prop in Hname as [_ Hname].
      simpl in Hname. discriminate.
    - symmetry. exact (proj1 (app_same_length _ _ _ _ Heq (eq_sym Hlen))).
    - symmetry in Heq. destruct (app_split_before _ _ _ _ Heq Hgt) as (a & t & Hn & Hs2).
      specialize (Hmin name a t Hn). rewrite <- Hs2, Hk in Hmin. discriminate. }
  subst s1. apply app_inv_head in Heq. subst s2. rewrite Hk in Hk1. injection Hk1 as <-.
  eexists. split; [reflexivity|]. split.
  - replace (name ++ text) with ((name ++ lit " subscribed at Tier ") ++ [T]
        ++ lit ". They've subscribed for " ++ M ++ lit " months, currently on a " ++ S
        ++ lit " month streak!")
      by (unfold text; rewrite <- !app_assoc; reflexivity).
    apply group_between; rewrite length_app; simpl; repeat (f_equal; try lia).
  - replace (name ++ text) with ((name ++ lit " subscribed at Tier " ++ [T]
        ++ lit ". They've subscribed for ") ++ M ++ lit " months, currently on a " ++ S
        ++ lit " month streak!")
      by (unfold text; rewrite <- !app_assoc; reflexivity).
    apply group_between; rewrite !length_app; simpl; repeat (f_equal; try lia).
Qed.

Lemma numeral_digits n : is_numeral n = true -> n <> [] /\ forallb is_digit n = true.
Proof. destruct n; [discriminate|]. intros H. split; [discriminate|exact H]. Qed.

(** C9. For a user name without white space and numerals M and S, the notice
    [<name> subscribed with Prime. They've subscribed for M months, currently
    on a S month streak!] is classified (prime, 0), while the Tier notice with
    the same clauses is classified (tier_T, M). *)
Theorem prime_streak_drops_tenure_tier_streak_keeps_it name M S :
  is_user_name name = true -> is_numeral M = true -> is_numeral S = true ->
  _get_subscription_type (prime_streak_message name M S) = (lit "prime", 0%Z)
  /\ forall T, is_digit T = true ->
       _get_subscription_type (tier_streak_message name T M S) = (lit "tier_" ++ [T], int M).
Proof.
  intros Hname HM HS.
  apply numeral_digits in HM as [HMne HM]. apply numeral_digits in HS as [HSne HS].
  split.
  - unfold _get_subscription_type.
    rewrite prime_tenure_rule_misses by assumption.
    destruct (prime_bare_rule_matches name M S Hname) as (m & ->). reflexivity.
  - intros T HT. unfold _get_subscription_type.
    rewrite prime_program, prime_bare_program.
    rewrite (prime_rules_miss_tier_notice name T M S prime_tail) by
      (try assumption; exact prime_tail_starts).
    rewrite (prime_rules_miss_tier_notice name T M S prime_bare_tail) by
      (try assumption; exact prime_bare_tail_starts).
    destruct (tier_streak_rule_groups name T M S) as (m & Hm & H1 & H2); try assumption.
    rewrite Hm. cbn [or_else]. now rewrite H1, H2.
Qed.

Lemma prime_streak_drops_tenure_tier_streak_keeps_it_witness :
  _get_subscription_type (prime_streak_message (lit "X") (lit "5") (lit "3"))
  = (lit "prime", 0%Z)
  /\ _get_subscription_type (tier_streak_message (lit "X") "2" (lit "5") (lit "3"))
     = (lit "tier_2", 5%Z).
Proof.
  destruct (prime_streak_drops_tenure_tier_streak_keeps_it (lit "X") (lit "5") (lit "3")
              eq_refl eq_refl eq_refl) as [Hprime Htier].
  split; [exact Hprime|exact (Htier "2"%char eq_refl)].
Defined.

(** ** The record parser *)

Lemma split_eq sep n s :
  split sep n s =
  match n with
  | O => [s]
  | S n' =>
      match s with
      | [] => [[]]
      | a :: s' =>
          if Ascii.eqb a sep then [] :: split sep n' s'
          else match split sep n s' with
               | f :: fs => (a :: f) :: fs
               | [] => [[a]]
               end
      end
  end.
Proof. destruct s, n; reflexivity. Qed.






Lemma split_field sep : forall a n rest,
  ~ In sep a -> split sep (S n) (a ++ sep :: rest) = a :: split sep n rest.
Proof.
  induction a as [|c a IH]; intros n rest Hn.
  - simpl app. rewrite split_eq. now rewrite Ascii.eqb_refl.
  - simpl app. rewrite split_eq.
    destruct (Ascii.eqb_spec c sep) as [->|Hne]; [exfalso; apply Hn; now left|].
    rewrite IH by (intros H; apply Hn; now right). reflexivity.
Qed.

Lemma slice_unwrap q1 body q2 q3 : slice (q1 :: body ++ [q2; q3]) 1 (-2) = body.
Proof.
  unfold slice, slice_index. simpl length. rewrite length_app. simpl length.
  change (1 <? 0)%Z with false. change (-2 <? 0)%Z with true. cbv iota.
  replace (Z.to_nat (Z.min (Z.of_nat (S (length body + 2))) (Z.max 0 1))) with 1 by lia.
  replace (Z.to_nat (Z.min (Z.of_nat (S (length body + 2)))
                       (Z.max 0 (-2 + Z.of_nat (S (length body + 2))))))
    with (S (length body)) by lia.
  simpl skipn. replace (S (length body) - 1) with (length body + 0) by lia.
  rewrite firstn_app_2. simpl. apply app_nil_r.
Qed.

Lemma slice_drops_three field :
  slice field 1 (-2) = firstn (length field - 3) (skipn 1 field).
Proof.
  unfold slice, slice_index.
  change (1 <? 0)%Z with false. change (-2 <? 0)%Z with true. cbv iota.
  destruct field as [|a field]; [reflexivity|].
  replace (Z.to_nat (Z.min (Z.of_nat (length (a :: field))) (Z.max 0 1))) with 1
    by (simpl length; lia).
  f_equal. simpl length. lia.
Qed.

Lemma set_last_snoc {A} (f : A -> A) l x : set_last f (l ++ [x]) = l ++ [f x].
Proof. unfold set_last. rewrite rev_app_distr. simpl. now rewrite rev_involutive. Qed.


(** ** The summary of a stream *)

Lemma calculate_revenue_counts (d : dict) d1 d2 d3 sp s1 s2 s3 tb :
  get_int d "donated_tier_1" = Ok d1 -> get_int d "donated_tier_2" = Ok d2 ->
  get_int d "donated_tier_3" = Ok d3 -> get_int d "subscribed_prime" = Ok sp ->
  get_int d "subscribed_tier_1" = Ok s1 -> get_int d "subscribed_tier_2" = Ok s2 ->
  get_int d "subscribed_tier_3" = Ok s3 -> get_int d "total_bits" = Ok tb ->
  calculate_revenue d =
  Ok (Fl.of_Z (d1 * 5 + d2 * 10 + d3 * 25 + sp * 5 + s1 * 5 + s2 * 10 + s3 * 25) / 2
      + Fl.of_Z tb * 0.01)%float.
Proof.
  intros H1 H2 H3 H4 H5 H6 H7 H8. unfold calculate_revenue.
  rewrite H1, H2, H3, H4, H5, H6, H7, H8. reflexivity.
Qed.

Lemma unique_users_pos (df : DataFrame) : df <> [] -> (0 < unique_users df)%Z.
Proof.
  intros Hne. unfold unique_users. destruct df as [|r df]; [congruence|].
  simpl map.
  assert (H : In (user_name r) (nodup str_eq_dec (user_name r :: map user_name df)))
    by (apply nodup_In; now left).
  destruct (nodup str_eq_dec (user_name r :: map user_name df)); [destruct H|].
  simpl length. lia.
Qed.


Lemma stream_time_some (df : DataFrame) : df <> [] -> exists t, stream_time_in_seconds df = Some t.
Proof. destruct df; [congruence|]. intros _. unfold stream_time_in_seconds. simpl. eauto. Qed.

Lemma get_stream_summary_rows file df chat_id t :
  read_csv (lines file) = Ok df -> df <> [] -> chat_id_of (name file) = Ok chat_id ->
  stream_time_in_seconds df = Some t ->
  get_stream_summary file = Ok (summary_of chat_id df t).
Proof.
  intros Hdf Hne Hid Ht. unfold get_stream_summary. rewrite Hdf. cbn [bind].
  assert (Hsubs : add_column_subscriptions df =
                  Ok (List.split (map (fun r => _get_subscription_type (message r)) df)))
    by (destruct df; [congruence|reflexivity]).
  rewrite Hsubs. cbn [bind]. rewrite Hid, Ht. cbn [bind].
  unfold num_messages_per_user, true_divide.
  pose proof (unique_users_pos df Hne) as Hu.
  destruct (Z.eqb_spec (unique_users df) 0); [lia|]. cbn [bind].
  erewrite calculate_revenue_counts by reflexivity.
  reflexivity.
Qed.

Lemma get_stream_summary_inv file s :
  get_stream_summary file = Ok s ->
  exists df chat_id t,
    read_csv (lines file) = Ok df /\ df <> [] /\ chat_id_of (name file) = Ok chat_id /\
    stream_time_in_seconds df = Some t /\ s = summary_of chat_id df t.
Proof.
  intros H. unfold get_stream_summary in H.
  destruct (read_csv (lines file)) as [df|e] eqn:Hdf; [|discriminate].
  cbn [bind] in H.
  destruct df as [|r df]; [discriminate|].
  destruct (chat_id_of (name file)) as [chat_id|e] eqn:Hid.
  - destruct (stream_time_some (r :: df)) as (t & Ht); [discriminate|].
    exists (r :: df), chat_id, t. repeat split; try assumption; try discriminate.
    assert (E := get_stream_summary_rows file (r :: df) chat_id t Hdf
                   ltac:(discriminate) Hid Ht).
    unfold get_stream_summary in E. rewrite Hdf in E. cbn [bind] in E.
    rewrite Hid in E. rewrite E in H. now injection H.
  - cbn [add_column_subscriptions bind] in H. discriminate.
Qed.









(** C10. In every summary revenue_per_hour is the revenue divided by the unrounded
    stream time (largest time / 3600) and revenue_per_user is the revenue
    divided by the number of distinct users, while stream_time_in_hours and
    messages_per_user are reported rounded to one decimal; in the example
    stream revenue_per_hour (27) times the reported stream time (0.3) is not
    the revenue (7.5). *)
Theorem ratios_divide_by_unrounded_values :
  (forall file s,
     get_stream_summary file = Ok s ->
     exists df t revenue,
       read_csv (lines file) = Ok df /\ stream_time_in_seconds df = Some t /\
       dict_get s "revenue" = Some (VFloat revenue) /\
       dict_get s "revenue_per_hour" = Some (VFloat (revenue / (Fl.of_Z t / 3600))) /\
       dict_get s "revenue_per_user" = Some (VFloat (revenue / Fl.of_Z (unique_users df))) /\
       dict_get s "stream_time_in_hours" = Some (VFloat (Fl.np_round1 (Fl.of_Z t / 3600))) /\
       dict_get s "messages_per_user"
       = Some (VFloat (Fl.py_round1 (Fl.of_Z (Z.of_nat (length df)) / Fl.of_Z (unique_users df)))))
  /\
  (exists s,
     get_stream_summary example_stream = Ok s /\
     dict_get s "revenue" = Some (VFloat 7.5) /\
     dict_get s "revenue_per_hour" = Some (VFloat 27) /\
     dict_get s "stream_time_in_hours" = Some (VFloat 0.3) /\
     dict_get s "messages_per_user" = Some (VFloat 1.3) /\
     (27 * 0.3 =? 7.5)%float = false)
  /\ Fl.np_round1 (Fl.of_Z 7200 / 3600) = 2%float
  /\ Fl.py_round1 (Fl.of_Z 10 / Fl.of_Z 5) = 2%float.
Proof.
  split; [|split; [|split; reflexivity]].
  - intros file s H. apply get_stream_summary_inv in H as (df & id & t & Hdf & Hne & _ & Ht & ->).
    exists df, t. eexists. repeat split; try eassumption; reflexivity.
  - eexists. split; [vm_compute; reflexivity|]. repeat split.
Qed.

Lemma ratios_divide_by_unrounded_values_witness :
  exists df t revenue,
    read_csv (lines example_stream) = Ok df /\ stream_time_in_seconds df = Some t /\
    dict_get (summary_of (lit "77") df t) "revenue" = Some (VFloat revenue) /\
    dict_get (summary_of (lit "77") df t) "revenue_per_hour"
    = Some (VFloat (revenue / (Fl.of_Z t / 3600))).
Proof.
  destruct (proj1 ratios_divide_by_unrounded_values example_stream
              (summary_of (lit "77")
                 [{| time := 10; user_name := lit "bob"; message := lit "hi, there" |};
                  {| time := 1000; user_name := lit "alice"; message := lit "Cheer250 wow" |};
                  {| time := 500; user_name := lit "bob";
                     message := lit "bob subscribed with Prime." |};
                  {| time := 700; user_name := lit "carl";
                     message := lit "carl gifted a Tier 1 sub to bob!" |}] 1000))
    as (df & t & revenue & Hdf & Ht & H1 & H2 & _).
  - vm_compute. reflexivity.
  - exists df, t, revenue. vm_compute in Hdf. injection Hdf as <-.
    vm_compute in Ht. injection Ht as <-. repeat split; assumption.
Defined.

(** ** The summary table and its average row *)

Lemma traverse_inv {A B} (f : A -> res B) : forall l bs,
  traverse f l = Ok bs -> Forall2 (fun a b => f a = Ok b) l bs.
Proof.
  induction l as [|a l IH]; intros bs H; simpl in H.
  - injection H as <-. constructor.
  - destruct (f a) as [b|] eqn:Ea; [|discriminate]. cbn [bind] in H.
    destruct (traverse f l) as [bs'|] eqn:El; [|discriminate]. cbn [bind] in H.
    injection H as <-. constructor; auto.
Qed.

Lemma traverse_ok {A B} (f : A -> res B) : forall l,
  (forall a, In a l -> exists b, f a = Ok b) -> exists bs, traverse f l = Ok bs.
Proof.
  induction l as [|a l IH]; intros H; simpl.
  - eauto.
  - destruct (H a) as (b & ->); [now left|]. cbn [bind].
    destruct IH as (bs & ->); [intros; apply H; now right|]. cbn [bind]. eauto.
Qed.








Section AverageFacts.

Variable Series_sum : list float -> float.



End AverageFacts.



(** ** The subscription notices, rule by rule *)

Lemma tier_tenure_program :
  _SUBSCRIBE_TIER_WITHOUT_STREAK_REGEX = MinStar AnyChar :: tier_tenure_tail.
Proof. reflexivity. Qed.

Lemma tier_first_program :
  _SUBSCRIBE_TIER_FIRST_SUBSCRIPTION_REGEX = MinStar AnyChar :: tier_first_tail.
Proof. reflexivity. Qed.

Lemma group_at subject mk n pre g suf b e :
  get_mark (2 * (n - 1)) mk = Some b -> get_mark (2 * (n - 1) + 1) mk = Some e ->
  subject = pre ++ g ++ suf -> b = length pre -> e = b + length g ->
  group {| subject := subject; group_marks := mk |} n = g.
Proof. intros Hb He -> -> ->. now apply group_between. Qed.

(** The lazy [.*?] stops at the end of a name without white space when what
    follows it in the pattern starts with a space. *)
Lemma scan_at_name (k : cont) name text r :
  is_user_name name = true ->
  (forall prev pos rest mk r', k prev pos rest mk = Some r' -> exists suf, rest = " "%char :: suf) ->
  k (prev_after None name) (0 + length name) text [] = Some r ->
  scan (charset_mem AnyChar) k None 0 (name ++ text) [] = Some r.
Proof.
  intros Hname Hsp Hk.
  destruct (scan_some _ _ _ _ _ _ _ _ (forallb_imp _ _ _ not_space_not_newline Hname) Hk)
    as (r' & Hr).
  rewrite Hr. f_equal.
  apply scan_inv in Hr as (s1 & s2 & Heq & Hok & Hk1 & Hmin).
  assert (Hs1 : s1 = name).
  { destruct (Nat.lt_trichotomy (length s1) (length name)) as [Hlt|[Hlen|Hgt]].
    - destruct (app_split_before _ _ _ _ Heq Hlt) as (a & t & Hn & Hs2).
      apply Hsp in Hk1 as (suf & Hs). rewrite Hs2 in Hs.
      injection Hs as -> _. unfold is_user_name in Hname.
      rewrite Hn, forallb_app in Hname. apply andb_prop in Hname as [_ Hname].
      simpl in Hname. discriminate.
    - symmetry. exact (proj1 (app_same_length _ _ _ _ Heq (eq_sym Hlen))).
    - symmetry in Heq. destruct (app_split_before _ _ _ _ Heq Hgt) as (a & t & Hn & Hs2).
      specialize (Hmin name a t Hn). rewrite <- Hs2, Hk in Hmin. discriminate. }
  subst s1. apply app_inv_head in Heq. subst s2. rewrite Hk in Hk1. now injection Hk1.
Qed.

Lemma no_space_in_name lead l1 l2 :
  is_user_name (l1 ++ lead ++ l2) = true -> existsb is_space lead = true -> False.
Proof.
  unfold is_user_name. rewrite !forallb_app. intros H He.
  apply andb_prop in H as [_ H]. apply andb_prop in H as [H _].
  induction lead as [|a lead IH]; simpl in *; [discriminate|].
  apply andb_prop in H as [Ha H]. destruct (is_space a); [discriminate|]. auto.
Qed.

(** A rule whose text, after the name, needs a character that the rest of
    the message does not have cannot match. *)
Lemma rule_misses (p : regex) (x : ascii) name body :
  is_user_name name = true ->
  forallb (fun a => negb (Ascii.eqb a x)) body = true ->
  (forall prev pos rest r, run p prev pos rest [] = Some r ->
     exists lead suf, rest = lead ++ x :: suf /\ existsb is_space lead = true) ->
  match_ (MinStar AnyChar :: p) (name ++ body) = None.
Proof.
  intros Hname Hbody Hp. unfold match_.
  change (run (MinStar AnyChar :: p)) with (scan (charset_mem AnyChar) (run p)).
  rewrite scan_none_intro; [reflexivity|].
  intros s1 s2 Heq _.
  destruct (run p (prev_after None s1) (0 + length s1) s2 []) eqn:E; [|reflexivity].
  exfalso. apply Hp in E as (lead & suf & -> & Hsp).
  assert (H : (s1 ++ lead) ++ x :: suf = name ++ body)
    by (rewrite <- app_assoc; symmetry; exact Heq).
  apply occurrence_in_prefix in H as (t & Hn); [|assumption].
  rewrite Hn, <- app_assoc in Hname. exact (no_space_in_name _ _ _ Hname Hsp).
Qed.

Lemma int_nonneg_from ds : forall acc, (0 <= acc)%Z -> forallb is_digit ds = true ->
  (0 <= fold_left (fun acc a => 10 * acc + digit_value a)%Z ds acc)%Z.
Proof.
  induction ds as [|d ds IH]; intros acc Hacc Hds; cbn [fold_left]; [assumption|].
  cbn [forallb] in Hds. apply andb_prop in Hds as [Hd Hds].
  apply IH; [|assumption]. pose proof (digit_value_range d Hd). lia.
Qed.

Lemma int_nonneg ds : forallb is_digit ds = true -> (0 <= int ds)%Z.
Proof. apply int_nonneg_from. lia. Qed.

Lemma digit_not (x : ascii) : is_digit x = false ->
  forall a, is_digit a = true -> negb (Ascii.eqb a x) = true.
Proof.
  intros Hx a Ha. destruct (Ascii.eqb_spec a x) as [->|]; [congruence|reflexivity].
Qed.

(** What the tails of the patterns read, and the marks they set. *)
Lemma prime_tail_full prev pos rest r :
  run prime_tail prev pos rest [] = Some r ->
  exists c ds suf,
    rest = lit " subscribed with Prime" ++ [c] ++ lit " They've subscribed for " ++ ds
           ++ lit " months!" ++ suf /\
    ds <> [] /\ forallb is_digit ds = true /\
    r = [(1, pos + 47 + length ds); (0, pos + 47)].
Proof.
  unfold prime_tail. intros H. repeat step_run H.
  rewrite run_max_plus in H. apply max_plus_inv in H as (ds & t & -> & Hne & Hds & H).
  repeat step_run H. cbn [run] in H. injection H as <-.
  do 3 eexists. split; [reflexivity|]. split; [eassumption|]. split; [exact Hds|].
  marks_eq.
Qed.

Lemma tier_tail_full prev pos rest r :
  run tier_tail prev pos rest [] = Some r ->
  exists d c ds ss suf,
    rest = lit " subscribed at Tier " ++ [d] ++ [c] ++ lit " They've subscribed for " ++ ds
           ++ lit " months, currently on a " ++ ss ++ lit " month streak!" ++ suf /\
    is_digit d = true /\ ds <> [] /\ forallb is_digit ds = true /\
    exists e5 e4,
    r = [(5, e5); (4, e4); (3, pos + 46 + length ds); (2, pos + 46); (1, pos + 21); (0, pos + 20)].
Proof.
  unfold tier_tail. intros H. repeat step_run H.
  rewrite run_max_plus in H. apply max_plus_inv in H as (ds & t & -> & Hne & Hds & H).
  repeat step_run H.
  rewrite run_max_plus in H. apply max_plus_inv in H as (ss & t & -> & _ & _ & H).
  repeat step_run H. cbn [run] in H. injection H as <-.
  do 5 eexists. split; [reflexivity|]. split; [eassumption|]. split; [assumption|].
  split; [exact Hds|]. do 2 eexists. marks_eq.
Qed.

Lemma tier_tenure_tail_full prev pos rest r :
  run tier_tenure_tail prev pos rest [] = Some r ->
  exists d c ds suf,
    rest = lit " subscribed at Tier " ++ [d] ++ [c] ++ lit " They've subscribed for " ++ ds
           ++ lit " months!" ++ suf /\
    is_digit d = true /\ ds <> [] /\ forallb is_digit ds = true /\
    r = [(3, pos + 46 + length ds); (2, pos + 46); (1, pos + 21); (0, pos + 20)].
Proof.
  unfold tier_tenure_tail. intros H. repeat step_run H.
  rewrite run_max_plus in H. apply max_plus_inv in H as (ds & t & -> & Hne & Hds & H).
  repeat step_run H. cbn [run] in H. injection H as <-.
  do 4 eexists. split; [reflexivity|]. split; [eassumption|]. split; [assumption|].
  split; [exact Hds|]. marks_eq.
Qed.

Lemma tier_first_tail_full prev pos rest r :
  run tier_first_tail prev pos rest [] = Some r ->
  exists d c suf,
    rest = lit " subscribed at Tier " ++ [d] ++ [c] ++ suf /\
    is_digit d = true /\ r = [(1, pos + 21); (0, pos + 20)].
Proof.
  unfold tier_first_tail. intros H. repeat step_run H. cbn [run] in H. injection H as <-.
  do 3 eexists. split; [reflexivity|]. split; [eassumption|]. marks_eq.
Qed.

Lemma match_tail_inv p msg m :
  match_ (MinStar AnyChar :: p) msg = Some m ->
  exists s1 s2 r, msg = s1 ++ s2 /\ m = {| subject := msg; group_marks := r |} /\
    run p (prev_after None s1) (0 + length s1) s2 [] = Some r.
Proof.
  unfold match_.
  change (run (MinStar AnyChar :: p)) with (scan (charset_mem AnyChar) (run p)).
  destruct (scan (charset_mem AnyChar) (run p) None 0 msg []) as [r|] eqn:E; [|discriminate].
  cbn [option_map]. intros H. injection H as <-.
  apply scan_inv in E as (s1 & s2 & Heq & _ & Hk & _). now exists s1, s2, r.
Qed.

(** The groups a match of a subscription pattern captured. *)
Lemma prime_captures msg m :
  match_ _SUBSCRIBE_PRIME_REGEX msg = Some m ->
  group m 1 <> [] /\ forallb is_digit (group m 1) = true.
Proof.
  rewrite prime_program. intros H.
  apply match_tail_inv in H as (s1 & s2 & r & -> & -> & H).
  apply prime_tail_full in H as (c & ds & suf & -> & Hne & Hds & ->).
  assert (Hg : group {| subject := s1 ++ lit " subscribed with Prime" ++ [c]
                          ++ lit " They've subscribed for " ++ ds ++ lit " months!" ++ suf;
                        group_marks := [(1, 0 + length s1 + 47 + length ds);
                                        (0, 0 + length s1 + 47)] |} 1 = ds).
  { eapply (group_at _ _ 1 (s1 ++ lit " subscribed with Prime" ++ [c]
                              ++ lit " They've subscribed for ") ds (lit " months!" ++ suf));
      [reflexivity|reflexivity| | |].
    - rewrite <- !app_assoc. reflexivity.
    - rewrite !length_app. simpl. lia.
    - lia. }
  rewrite Hg. auto.
Qed.

Lemma tier_captures msg m :
  match_ _SUBSCRIBE_TIER_REGEX msg = Some m ->
  (exists d, is_digit d = true /\ group m 1 = [d]) /\
  group m 2 <> [] /\ forallb is_digit (group m 2) = true.
Proof.
  rewrite tier_program. intros H.
  apply match_tail_inv in H as (s1 & s2 & r & -> & -> & H).
  apply tier_tail_full in H as (d & c & ds & ss & suf & -> & Hd & Hne & Hds & e5 & e4 & ->).
  set (rest := lit " months, currently on a " ++ ss ++ lit " month streak!" ++ suf).
  split.
  - exists d. split; [assumption|].
    eapply (group_at _ _ 1 (s1 ++ lit " subscribed at Tier ") [d]
              ([c] ++ lit " They've subscribed for " ++ ds ++ rest));
      [reflexivity|reflexivity| | |].
    + rewrite <- !app_assoc. reflexivity.
    + rewrite !length_app. simpl. lia.
    + simpl. lia.
  - assert (Hg : group {| subject := s1 ++ lit " subscribed at Tier " ++ [d] ++ [c]
                            ++ lit " They've subscribed for " ++ ds ++ rest;
                          group_marks := [(5, e5); (4, e4);
                                          (3, 0 + length s1 + 46 + length ds);
                                          (2, 0 + length s1 + 46); (1, 0 + length s1 + 21);
                                          (0, 0 + length s1 + 20)] |} 2 = ds).
    { eapply (group_at _ _ 2 (s1 ++ lit " subscribed at Tier " ++ [d] ++ [c]
                                ++ lit " They've subscribed for ") ds rest);
        [reflexivity|reflexivity| | |].
      - rewrite <- !app_assoc. reflexivity.
      - rewrite !length_app. simpl. lia.
      - lia. }
    rewrite Hg. auto.
Qed.

Lemma tier_tenure_captures msg m :
  match_ _SUBSCRIBE_TIER_WITHOUT_STREAK_REGEX msg = Some m ->
  (exists d, is_digit d = true /\ group m 1 = [d]) /\
  group m 2 <> [] /\ forallb is_digit (group m 2) = true.
Proof.
  rewrite tier_tenure_program. intros H.
  apply match_tail_inv in H as (s1 & s2 & r & -> & -> & H).
  apply tier_tenure_tail_full in H as (d & c & ds & suf & -> & Hd & Hne & Hds & ->).
  set (rest := lit " months!" ++ suf).
  split.
  - exists d. split; [assumption|].
    eapply (group_at _ _ 1 (s1 ++ lit " subscribed at Tier ") [d]
              ([c] ++ lit " They've subscribed for " ++ ds ++ rest));
      [reflexivity|reflexivity| | |].
    + rewrite <- !app_assoc. reflexivity.
    + rewrite !length_app. simpl. lia.
    + simpl. lia.
  - assert (Hg : group {| subject := s1 ++ lit " subscribed at Tier " ++ [d] ++ [c]
                            ++ lit " They've subscribed for " ++ ds ++ rest;
                          group_marks := [(3, 0 + length s1 + 46 + length ds);
                                          (2, 0 + length s1 + 46); (1, 0 + length s1 + 21);
                                          (0, 0 + length s1 + 20)] |} 2 = ds).
    { eapply (group_at _ _ 2 (s1 ++ lit " subscribed at Tier " ++ [d] ++ [c]
                                ++ lit " They've subscribed for ") ds rest);
        [reflexivity|reflexivity| | |].
      - rewrite <- !app_assoc. reflexivity.
      - rewrite !length_app. simpl. lia.
      - lia. }
    rewrite Hg. auto.
Qed.

Lemma tier_first_captures msg m :
  match_ _SUBSCRIBE_TIER_FIRST_SUBSCRIPTION_REGEX msg = Some m ->
  exists d, is_digit d = true /\ group m 1 = [d].
Proof.
  rewrite tier_first_program. intros H.
  apply match_tail_inv in H as (s1 & s2 & r & -> & -> & H).
  apply tier_first_tail_full in H as (d & c & suf & -> & Hd & ->).
  exists d. split; [assumption|].
  eapply (group_at _ _ 1 (s1 ++ lit " subscribed at Tier ") [d] ([c] ++ suf));
    [reflexivity|reflexivity| | |].
  - rewrite <- !app_assoc. reflexivity.
  - rewrite !length_app. simpl. lia.
  - simpl. lia.
Qed.

(** X1. For every message the subscription classifier returns a number of
    months that is not negative and one of the types none (with 0 months),
    prime, or tier_ followed by one decimal digit. *)
Theorem subscription_type_is_none_prime_or_tier_digit msg :
  (0 <= snd (_get_subscription_type msg))%Z /\
  (_get_subscription_type msg = (lit "none", 0%Z) \/
   fst (_get_subscription_type msg) = lit "prime" \/
   exists d, is_digit d = true /\ fst (_get_subscription_type msg) = lit "tier_" ++ [d]).
Proof.
  unfold _get_subscription_type.
  destruct (match_ _SUBSCRIBE_PRIME_REGEX msg) as [m|] eqn:E1.
  { apply prime_captures in E1 as [_ Hds]. cbn [fst snd].
    split; [now apply int_nonneg|]. right; left; reflexivity. }
  destruct (match_ _SUBSCRIBE_PRIME_WITHOUT_STREAK_REGEX msg) as [m|] eqn:E2.
  { cbn [fst snd]. split; [lia|]. right; left; reflexivity. }
  destruct (match_ _SUBSCRIBE_TIER_REGEX msg) as [m|] eqn:E3.
  { cbn [or_else]. apply tier_captures in E3 as ((d & Hd & Hg) & _ & Hds). cbn [fst snd].
    split; [now apply int_nonneg|]. right; right. exists d. now rewrite Hg. }
  cbn [or_else].
  destruct (match_ _SUBSCRIBE_TIER_WITHOUT_STREAK_REGEX msg) as [m|] eqn:E4.
  { apply tier_tenure_captures in E4 as ((d & Hd & Hg) & _ & Hds). cbn [fst snd].
    split; [now apply int_nonneg|]. right; right. exists d. now rewrite Hg. }
  destruct (match_ _SUBSCRIBE_TIER_FIRST_SUBSCRIPTION_REGEX msg) as [m|] eqn:E5.
  { apply tier_first_captures in E5 as (d & Hd & Hg). cbn [fst snd].
    split; [lia|]. right; right. exists d. now rewrite Hg. }
  cbn [fst snd]. split; [lia|]. left; reflexivity.
Qed.

Lemma prime_tail_run prev pos M :
  M <> [] -> forallb is_digit M = true ->
  run prime_tail prev pos
    (lit " subscribed with Prime. They've subscribed for " ++ M ++ lit " months!") []
  = Some [(1, pos + 47 + length M); (0, pos + 47)].
Proof.
  intros HMne HM. unfold prime_tail.
  let l := eval vm_compute in (lit " subscribed with Prime. They've subscribed for ") in
    change (lit " subscribed with Prime. They've subscribed for ") with l.
  cbn [app]. rewrite !run_lit_cons, run_one_cons by reflexivity.
  rewrite !run_lit_cons, run_mark, run_max_plus.
  rewrite (max_plus_greedy _ M _ _ _ _ [(1, pos + 47 + length M); (0, pos + 47)]);
    [reflexivity|assumption|assumption|reflexivity|].
  let l := eval vm_compute in (lit " months!") in change (lit " months!") with l.
  rewrite run_mark, !run_lit_cons. cbn [run]. marks_eq.
Qed.

Lemma prime_bare_tail_run prev pos suf :
  run prime_bare_tail prev pos (lit " subscribed with Prime." ++ suf) [] = Some [].
Proof.
  unfold prime_bare_tail.
  let l := eval vm_compute in (lit " subscribed with Prime.") in
    change (lit " subscribed with Prime.") with l.
  cbn [app]. rewrite !run_lit_cons, run_one_cons by reflexivity. reflexivity.
Qed.

Lemma tier_tenure_tail_run prev pos T M :
  is_digit T = true -> M <> [] -> forallb is_digit M = true ->
  run tier_tenure_tail prev pos
    (lit " subscribed at Tier " ++ [T] ++ lit ". They've subscribed for " ++ M
       ++ lit " months!") []
  = Some [(3, pos + 46 + length M); (2, pos + 46); (1, pos + 21); (0, pos + 20)].
Proof.
  intros HT HMne HM. unfold tier_tenure_tail.
  let l := eval vm_compute in (lit " subscribed at Tier ") in
    change (lit " subscribed at Tier ") with l.
  let l := eval vm_compute in (lit ". They've subscribed for ") in
    change (lit ". They've subscribed for ") with l.
  cbn [app]. rewrite !run_lit_cons, run_mark, (run_one_cons Digit) by exact HT.
  rewrite run_mark, run_one_cons by reflexivity.
  rewrite !run_lit_cons, run_mark, run_max_plus.
  rewrite (max_plus_greedy _ M _ _ _ _
             [(3, pos + 46 + length M); (2, pos + 46); (1, pos + 21); (0, pos + 20)]);
    [reflexivity|assumption|assumption|reflexivity|].
  let l := eval vm_compute in (lit " months!") in change (lit " months!") with l.
  rewrite run_mark, !run_lit_cons. cbn [run]. marks_eq.
Qed.

Lemma tier_first_tail_run prev pos T suf :
  is_digit T = true ->
  run tier_first_tail prev pos (lit " subscribed at Tier " ++ [T] ++ lit "." ++ suf) []
  = Some [(1, pos + 21); (0, pos + 20)].
Proof.
  intros HT. unfold tier_first_tail.
  let l := eval vm_compute in (lit " subscribed at Tier ") in
    change (lit " subscribed at Tier ") with l.
  let l := eval vm_compute in (lit ".") in change (lit ".") with l.
  cbn [app]. rewrite !run_lit_cons, run_mark, (run_one_cons Digit) by exact HT.
  rewrite run_mark, run_one_cons by reflexivity. cbn [run]. marks_eq.
Qed.

(** Every tail starts with the space that ends the name. *)
Lemma prime_tail_space prev pos rest mk r :
  run prime_tail prev pos rest mk = Some r -> exists suf, rest = " "%char :: suf.
Proof. intros H. apply prime_tail_starts in H as (suf & ->). eexists. reflexivity. Qed.

Lemma tier_tenure_tail_space prev pos rest mk r :
  run tier_tenure_tail prev pos rest mk = Some r -> exists suf, rest = " "%char :: suf.
Proof. unfold tier_tenure_tail. intros H. step_run H. eauto. Qed.

Lemma tier_first_tail_space prev pos rest mk r :
  run tier_first_tail prev pos rest mk = Some r -> exists suf, rest = " "%char :: suf.
Proof. unfold tier_first_tail. intros H. step_run H. eauto. Qed.

(** Characters that the tails need after a space. *)
Lemma prime_tail_needs_P prev pos rest mk r :
  run prime_tail prev pos rest mk = Some r ->
  exists lead suf, rest = lead ++ "P"%char :: suf /\ existsb is_space lead = true.
Proof.
  intros H. apply prime_tail_starts in H as (suf & ->).
  exists (lit " subscribed with "), suf. split; reflexivity.
Qed.

Lemma prime_bare_tail_needs_P prev pos rest mk r :
  run prime_bare_tail prev pos rest mk = Some r ->
  exists lead suf, rest = lead ++ "P"%char :: suf /\ existsb is_space lead = true.
Proof.
  intros H. apply prime_bare_tail_starts in H as (suf & ->).
  exists (lit " subscribed with "), suf. split; reflexivity.
Qed.

Lemma prime_tail_needs_apostrophe prev pos rest mk r :
  run prime_tail prev pos rest mk = Some r ->
  exists lead suf, rest = lead ++ "'"%char :: suf /\ existsb is_space lead = true.
Proof.
  intros H. apply prime_tail_inv in H as (c & ds & suf & ->).
  exists (lit " subscribed with Prime" ++ [c] ++ lit " They"). eexists.
  split; reflexivity.
Qed.

Lemma tier_tail_needs_apostrophe prev pos rest mk r :
  run tier_tail prev pos rest mk = Some r ->
  exists lead suf, rest = lead ++ "'"%char :: suf /\ existsb is_space lead = true.
Proof.
  unfold tier_tail. intros H. do 30 step_run H.
  exists (lit " subscribed at Tier " ++ [a] ++ [a0] ++ lit " They"). eexists.
  split; reflexivity.
Qed.

Lemma tier_tenure_tail_needs_apostrophe prev pos rest mk r :
  run tier_tenure_tail prev pos rest mk = Some r ->
  exists lead suf, rest = lead ++ "'"%char :: suf /\ existsb is_space lead = true.
Proof.
  unfold tier_tenure_tail. intros H. do 30 step_run H.
  exists (lit " subscribed at Tier " ++ [a] ++ [a0] ++ lit " They"). eexists.
  split; reflexivity.
Qed.

Lemma tier_tail_needs_comma prev pos rest r :
  run tier_tail prev pos rest [] = Some r ->
  exists lead suf, rest = lead ++ ","%char :: suf /\ existsb is_space lead = true.
Proof.
  intros H. apply tier_tail_full in H as (d & c & ds & ss & suf & -> & _).
  exists (lit " subscribed at Tier " ++ [d] ++ [c] ++ lit " They've subscribed for " ++ ds
            ++ lit " months").
  exists (lit " currently on a " ++ ss ++ lit " month streak!" ++ suf).
  split; [|reflexivity]. rewrite <- !app_assoc. reflexivity.
Qed.

(** X2. The notice [<name> subscribed with Prime. They've subscribed for M
    months!], for a user name without white space and a numeral M, is
    classified (prime, M). *)
Theorem prime_notice_with_tenure_gives_months name M :
  is_user_name name = true -> is_numeral M = true ->
  _get_subscription_type (prime_tenure_message name M) = (lit "prime", int M).
Proof.
  intros Hname HM. apply numeral_digits in HM as [HMne HM].
  unfold _get_subscription_type, prime_tenure_message, match_ at 1.
  rewrite prime_program.
  change (run (MinStar AnyChar :: prime_tail)) with (scan (charset_mem AnyChar) (run prime_tail)).
  rewrite (scan_at_name (run prime_tail) name _ _ Hname prime_tail_space
             (prime_tail_run _ _ M HMne HM)).
  cbn [option_map]. f_equal. f_equal.
  eapply (group_at _ _ 1 (name ++ lit " subscribed with Prime. They've subscribed for ") M
            (lit " months!")); [reflexivity|reflexivity| | |].
  - rewrite <- !app_assoc. reflexivity.
  - rewrite !length_app. simpl. lia.
  - lia.
Qed.

Lemma prime_notice_with_tenure_gives_months_witness :
  _get_subscription_type (prime_tenure_message (lit "alice_01") (lit "12")) = (lit "prime", 12%Z).
Proof.
  exact (prime_notice_with_tenure_gives_months (lit "alice_01") (lit "12") eq_refl eq_refl).
Defined.

(** X3. The first-time notice [<name> subscribed with Prime.], for a user name
    without white space, is classified (prime, 0): the tenure rule does not
    match it and the bare Prime rule does. *)
Theorem prime_notice_without_tenure_gives_zero name :
  is_user_name name = true ->
  _get_subscription_type (prime_first_message name) = (lit "prime", 0%Z).
Proof.
  intros Hname. unfold _get_subscription_type, prime_first_message.
  rewrite prime_program.
  rewrite (rule_misses prime_tail "'" name (lit " subscribed with Prime.") Hname eq_refl
             (fun prev pos rest r => prime_tail_needs_apostrophe prev pos rest [] r)).
  rewrite prime_bare_program. unfold match_.
  change (run (MinStar AnyChar :: prime_bare_tail))
    with (scan (charset_mem AnyChar) (run prime_bare_tail)).
  pose proof (prime_bare_tail_run (prev_after None name) (0 + length name) []) as Hk.
  rewrite app_nil_r in Hk.
  destruct (scan_some _ _ _ _ _ _ _ _ (forallb_imp _ _ _ not_space_not_newline Hname) Hk)
    as (r & ->).
  reflexivity.
Qed.

Lemma prime_notice_without_tenure_gives_zero_witness :
  _get_subscription_type (prime_first_message (lit "alice_01")) = (lit "prime", 0%Z).
Proof. exact (prime_notice_without_tenure_gives_zero (lit "alice_01") eq_refl). Defined.

Lemma tier_tenure_rule_groups name T M :
  is_user_name name = true -> is_digit T = true -> M <> [] -> forallb is_digit M = true ->
  exists m, match_ _SUBSCRIBE_TIER_WITHOUT_STREAK_REGEX (tier_tenure_message name T M) = Some m /\
            group m 1 = [T] /\ group m 2 = M.
Proof.
  intros Hname HT HMne HM. unfold match_, tier_tenure_message. rewrite tier_tenure_program.
  change (run (MinStar AnyChar :: tier_tenure_tail))
    with (scan (charset_mem AnyChar) (run tier_tenure_tail)).
  rewrite (scan_at_name (run tier_tenure_tail) name _ _ Hname tier_tenure_tail_space
             (tier_tenure_tail_run _ _ T M HT HMne HM)).
  cbn [option_map]. eexists. split; [reflexivity|]. split.
  - eapply (group_at _ _ 1 (name ++ lit " subscribed at Tier ") [T]
              (lit ". They've subscribed for " ++ M ++ lit " months!"));
      [reflexivity|reflexivity| | |].
    + rewrite <- !app_assoc. reflexivity.
    + rewrite !length_app. simpl. lia.
    + simpl. lia.
  - eapply (group_at _ _ 2 (name ++ lit " subscribed at Tier " ++ [T]
                              ++ lit ". They've subscribed for ") M (lit " months!"));
      [reflexivity|reflexivity| | |].
    + rewrite <- !app_assoc. reflexivity.
    + rewrite !length_app. simpl. lia.
    + lia.
Qed.

(** X4. The notice [<name> subscribed at Tier T. They've subscribed for M
    months!] without a streak clause, for a user name without white space, a
    digit T and a numeral M, is classified (tier_T, M). *)
Theorem tier_notice_without_streak_gives_months name T M :
  is_user_name name = true -> is_digit T = true -> is_numeral M = true ->
  _get_subscription_type (tier_tenure_message name T M) = (lit "tier_" ++ [T], int M).
Proof.
  intros Hname HT HM. apply numeral_digits in HM as [HMne HM].
  destruct (tier_tenure_rule_groups name T M Hname HT HMne HM) as (m & Hm & H1 & H2).
  unfold _get_subscription_type. rewrite Hm. unfold tier_tenure_message.
  rewrite prime_program, prime_bare_program, tier_program.
  rewrite (rule_misses prime_tail "P" name _ Hname),
          (rule_misses prime_bare_tail "P" name _ Hname),
          (rule_misses tier_tail "," name _ Hname).
  - cbn [or_else]. now rewrite H1, H2.
  - rewrite !forallb_app, (forallb_imp _ _ _ (digit_not "," eq_refl) HM).
    cbn [forallb]. rewrite (digit_not "," eq_refl T HT). reflexivity.
  - exact tier_tail_needs_comma.
  - rewrite !forallb_app, (forallb_imp _ _ _ digit_not_P HM).
    cbn [forallb]. rewrite (digit_not_P T HT). reflexivity.
  - exact (fun prev pos rest r => prime_bare_tail_needs_P prev pos rest [] r).
  - rewrite !forallb_app, (forallb_imp _ _ _ digit_not_P HM).
    cbn [forallb]. rewrite (digit_not_P T HT). reflexivity.
  - exact (fun prev pos rest r => prime_tail_needs_P prev pos rest [] r).
Qed.

Lemma tier_notice_without_streak_gives_months_witness :
  _get_subscription_type (tier_tenure_message (lit "bob") "3" (lit "7")) = (lit "tier_3", 7%Z).
Proof.
  exact (tier_notice_without_streak_gives_months (lit "bob") "3" (lit "7")
           eq_refl eq_refl eq_refl).
Defined.

Lemma tier_first_rule_group name T :
  is_user_name name = true -> is_digit T = true ->
  exists m, match_ _SUBSCRIBE_TIER_FIRST_SUBSCRIPTION_REGEX (tier_first_message name T) = Some m /\
            group m 1 = [T].
Proof.
  intros Hname HT. unfold match_, tier_first_message. rewrite tier_first_program.
  change (run (MinStar AnyChar :: tier_first_tail))
    with (scan (charset_mem AnyChar) (run tier_first_tail)).
  pose proof (tier_first_tail_run (prev_after None name) (0 + length name) T [] HT) as Hk.
  rewrite app_nil_r in Hk.
  rewrite (scan_at_name (run tier_first_tail) name _ _ Hname tier_first_tail_space Hk).
  cbn [option_map]. eexists. split; [reflexivity|].
  eapply (group_at _ _ 1 (name ++ lit " subscribed at Tier ") [T] (lit "."));
    [reflexivity|reflexivity| | |].
  - rewrite <- !app_assoc. reflexivity.
  - rewrite !length_app. simpl. lia.
  - simpl. lia.
Qed.

(** X5. The first-time notice [<name> subscribed at Tier T.], for a user name
    without white space and a digit T, is classified (tier_T, 0). *)
Theorem tier_first_notice_gives_zero name T :
  is_user_name name = true -> is_digit T = true ->
  _get_subscription_type (tier_first_message name T) = (lit "tier_" ++ [T], 0%Z).
Proof.
  intros Hname HT.
  destruct (tier_first_rule_group name T Hname HT) as (m & Hm & H1).
  unfold _get_subscription_type. rewrite Hm. unfold tier_first_message.
  rewrite prime_program, prime_bare_program, tier_program, tier_tenure_program.
  rewrite (rule_misses prime_tail "P" name _ Hname),
          (rule_misses prime_bare_tail "P" name _ Hname),
          (rule_misses tier_tail "'" name _ Hname),
          (rule_misses tier_tenure_tail "'" name _ Hname).
  - cbn [or_else]. now rewrite H1.
  - cbn [forallb app lit list_ascii_of_string]. rewrite (digit_not "'" eq_refl T HT). reflexivity.
  - exact (fun prev pos rest r => tier_tenure_tail_needs_apostrophe prev pos rest [] r).
  - cbn [forallb app lit list_ascii_of_string]. rewrite (digit_not "'" eq_refl T HT). reflexivity.
  - exact (fun prev pos rest r => tier_tail_needs_apostrophe prev pos rest [] r).
  - cbn [forallb app lit list_ascii_of_string]. rewrite (digit_not_P T HT). reflexivity.
  - exact (fun prev pos rest r => prime_bare_tail_needs_P prev pos rest [] r).
  - cbn [forallb app lit list_ascii_of_string]. rewrite (digit_not_P T HT). reflexivity.
  - exact (fun prev pos rest r => prime_tail_needs_P prev pos rest [] r).
Qed.

Lemma tier_first_notice_gives_zero_witness :
  _get_subscription_type (tier_first_message (lit "bob") "1") = (lit "tier_1", 0%Z).
Proof. exact (tier_first_notice_gives_zero (lit "bob") "1" eq_refl eq_refl). Defined.

(** ** The chat id of a file name *)

Lemma chat_id_compiled : compile "twitch-chat-(\d+)_" = chat_id_program.
Proof. reflexivity. Qed.

Lemma chat_id_at_inv prev pos rest r :
  run chat_id_program prev pos rest [] = Some r ->
  exists ds post, rest = lit "twitch-chat-" ++ ds ++ "_"%char :: post /\
    ds <> [] /\ forallb is_digit ds = true /\
    r = [(1, pos + 12 + length ds); (0, pos + 12)].
Proof.
  unfold chat_id_program. intros H. repeat step_run H.
  rewrite run_max_plus in H. apply max_plus_inv in H as (ds & t & -> & Hne & Hds & H).
  repeat step_run H. cbn [run] in H. injection H as <-.
  do 2 eexists. split; [reflexivity|]. split; [eassumption|]. split; [exact Hds|]. marks_eq.
Qed.

Lemma chat_id_at_run prev pos ds post :
  ds <> [] -> forallb is_digit ds = true ->
  run chat_id_program prev pos (lit "twitch-chat-" ++ ds ++ "_"%char :: post) []
  = Some [(1, pos + 12 + length ds); (0, pos + 12)].
Proof.
  intros Hne Hds. unfold chat_id_program.
  let l := eval vm_compute in (lit "twitch-chat-") in change (lit "twitch-chat-") with l.
  cbn [app]. rewrite !run_lit_cons, run_mark, run_max_plus.
  rewrite (max_plus_greedy _ ds _ _ _ _ [(1, pos + 12 + length ds); (0, pos + 12)]);
    [reflexivity|assumption|assumption|reflexivity|].
  rewrite run_mark, run_lit_cons. cbn [run]. marks_eq.
Qed.

(** X6. The chat id of a file name is the numeral of the leftmost marker
    [twitch-chat-<digits>_] in it, as a string; a name without such a marker
    raises AttributeError. *)
Theorem chat_id_is_numeral_of_first_marker name :
  (exists pre ds post,
     chat_id_marker name pre ds post /\
     (forall pre' ds' post', chat_id_marker name pre' ds' post' -> length pre <= length pre') /\
     chat_id_of name = Ok ds)
  \/
  ((forall pre ds post, ~ chat_id_marker name pre ds post) /\
   chat_id_of name = Raise AttributeError).
Proof.
  unfold chat_id_of, search. rewrite chat_id_compiled.
  set (k := fun (prev : option ascii) (pos : nat) (rest : str) (_ : marks) =>
              run chat_id_program prev pos rest []).
  destruct (scan (fun _ => true) k None 0 name []) as [r|] eqn:E.
  - left. apply scan_inv in E as (s1 & s2 & -> & _ & Hk & Hmin).
    unfold k in Hk. apply chat_id_at_inv in Hk as (ds & post & -> & Hne & Hds & ->).
    exists s1, ds, post. split; [|split].
    + split; [reflexivity|]. destruct ds; [congruence|exact Hds].
    + intros pre' ds' post' [Heq Hnum]. apply numeral_digits in Hnum as [Hne' Hds'].
      destruct (Nat.le_gt_cases (length s1) (length pre')) as [|Hlt]; [assumption|].
      destruct (app_split_before _ _ _ _ Heq Hlt) as (a & t & -> & Hx).
      specialize (Hmin pre' a t eq_refl). rewrite <- Hx in Hmin. unfold k in Hmin.
      rewrite chat_id_at_run in Hmin by assumption. discriminate.
    + cbv beta iota delta [option_map]. f_equal.
      eapply (group_at _ _ 1 (s1 ++ lit "twitch-chat-") ds ("_"%char :: post));
        [reflexivity|reflexivity| | |].
      * rewrite <- !app_assoc. reflexivity.
      * rewrite !length_app. simpl. lia.
      * lia.
  - right. split; [|reflexivity].
    intros pre ds post [-> Hnum]. apply numeral_digits in Hnum as [Hne Hds].
    pose proof (scan_none _ _ _ _ _ _ E pre _ eq_refl (forallb_true _)) as H.
    unfold k in H. rewrite chat_id_at_run in H by assumption. discriminate.
Qed.

(** ** Reading the exporter's files *)

Lemma read_csv_standard_header data :
  read_csv (header_line :: data) =
  let rows := map (set_last (fun field => slice field 1 (-2))) (map (split "," 3) data) in
  if forallb (fun r => Nat.eqb (length r) 4) rows then traverse standard_row rows
  else Raise ValueError.
Proof. reflexivity. Qed.

Lemma digits_no_comma t : forallb is_digit t = true -> ~ In ","%char t.
Proof.
  intros H Hin. rewrite forallb_forall in H. specialize (H _ Hin). discriminate.
Qed.

Lemma to_numeric_numeral t : is_numeral t = true -> to_numeric t = Ok (int t).
Proof.
  destruct t as [|a t]; [discriminate|]. intros H. cbn [is_numeral] in H.
  unfold to_numeric. rewrite H.
  destruct (Ascii.eqb_spec a "-") as [->|Hne]; [discriminate|].
  destruct a as [[] [] [] [] [] [] [] []]; try reflexivity; destruct t; try reflexivity;
    congruence.
Qed.






Lemma raw_line_fields e :
  well_formed e ->
  set_last (fun field => slice field 1 (-2)) (split "," 3 (raw_line e))
  = [fst (fst (fst e)); snd (fst (fst e)); snd (fst e);
     firstn (length (snd e) - 3) (skipn 1 (snd e))].
Proof.
  destruct e as [[[t user] color] field]. intros (Ht & Hu & Hc).
  apply numeral_digits in Ht as [_ Ht]. cbn [fst snd raw_line].
  rewrite !split_field by (try assumption; now apply digits_no_comma).
  rewrite split_eq.
  change [t; user; color; field] with ([t; user; color] ++ [field]).
  rewrite set_last_snoc, slice_drops_three. reflexivity.
Qed.

(** What [read_csv] makes of the lines of a file with the exporter's header. *)
Lemma read_csv_raw_lines entries :
  Forall well_formed entries ->
  read_csv (header_line :: map raw_line entries) = Ok (map raw_row entries).
Proof.
  intros H. rewrite read_csv_standard_header. cbv zeta. rewrite !map_map.
  assert (Hrows : map (fun e => set_last (fun field => slice field 1 (-2))
                                  (split "," 3 (raw_line e))) entries
                  = map (fun e : entry =>
                           [fst (fst (fst e)); snd (fst (fst e)); snd (fst e);
                            firstn (length (snd e) - 3) (skipn 1 (snd e))])
                        entries).
  { apply map_ext_in. intros e He. apply raw_line_fields.
    rewrite Forall_forall in H. auto. }
  rewrite Hrows. clear Hrows.
  match goal with
  | |- context [forallb ?f ?l] => assert (Hlen : forallb f l = true)
  end.
  { rewrite forallb_forall. intros r Hr. apply in_map_iff in Hr as (e & <- & _). reflexivity. }
  rewrite Hlen. clear Hlen.
  induction H as [|e entries He _ IH]; [reflexivity|].
  cbn [map traverse]. rewrite IH.
  destruct e as [[[t user] color] field]. destruct He as (Ht & _).
  unfold standard_row. cbn [fst snd nth]. rewrite (to_numeric_numeral t Ht). reflexivity.
Qed.

Lemma unwrap_by_position (q1 : ascii) (body : str) (q2 q3 : ascii) :
  firstn (length (q1 :: body ++ [q2; q3]) - 3) (skipn 1 (q1 :: body ++ [q2; q3])) = body.
Proof. rewrite <- slice_drops_three. apply slice_unwrap. Qed.

Lemma wrapped_well_formed entries :
  Forall well_formed entries -> Forall well_formed (map wrapped entries).
Proof.
  induction 1 as [|e entries He _ IH]; constructor; [|exact IH].
  destruct e as [[[t user] color] msg]. exact He.
Qed.

(** The lines and rows of the exporter are those of the wrapped entries. *)
Lemma read_csv_entry_lines entries :
  Forall well_formed entries ->
  read_csv (header_line :: map entry_line entries) = Ok (map entry_row entries).
Proof.
  intros H.
  replace (map entry_line entries) with (map raw_line (map wrapped entries)).
  - rewrite (read_csv_raw_lines _ (wrapped_well_formed _ H)). f_equal.
    rewrite map_map. apply map_ext. intros [[[t user] color] msg].
    unfold wrapped, raw_row, entry_row. now rewrite unwrap_by_position.
  - rewrite map_map. apply map_ext. intros [[[t user] color] msg]. reflexivity.
Qed.




(** ** Statistics and the shape of a summary *)

Lemma nodup_length_le {A} (dec : forall x y : A, {x = y} + {x <> y}) (l : list A) :
  length (nodup dec l) <= length l.
Proof.
  induction l as [|a l IH]; simpl; [lia|]. destruct (in_dec dec a l); simpl; lia.
Qed.

Lemma unique_users_le (df : DataFrame) : (unique_users df <= Z.of_nat (length df))%Z.
Proof.
  unfold unique_users. pose proof (nodup_length_le str_eq_dec (map user_name df)) as H.
  rewrite length_map in H. lia.
Qed.

(** X9. The mean number of messages per user raises ZeroDivisionError exactly
    for a frame without rows.  A frame with rows has at least one distinct
    user and at most as many as it has rows, and the mean is the quotient of
    the two counts. *)
Theorem messages_per_user_needs_a_row (df : DataFrame) :
  (df = [] /\ num_messages_per_user df = Raise ZeroDivisionError) \/
  (df <> [] /\ (1 <= unique_users df <= Z.of_nat (length df))%Z /\
   num_messages_per_user df
   = Ok (Fl.of_Z (Z.of_nat (length df)) / Fl.of_Z (unique_users df))%float).
Proof.
  destruct df as [|r df]; [left; split; reflexivity|].
  right. split; [discriminate|].
  pose proof (unique_users_pos (r :: df) ltac:(discriminate)) as Hpos.
  pose proof (unique_users_le (r :: df)) as Hle.
  split; [lia|]. unfold num_messages_per_user, true_divide.
  destruct (Z.eqb_spec (unique_users (r :: df)) 0); [lia|reflexivity].
Qed.

Lemma fold_max_spec : forall ts t0,
  let m := fold_left Z.max ts t0 in
  (m = t0 \/ In m ts) /\ (t0 <= m)%Z /\ forall x, In x ts -> (x <= m)%Z.
Proof.
  induction ts as [|t ts IH]; intros t0; cbn [fold_left].
  - split; [now left|]. split; [lia|]. intros x [].
  - destruct (IH (Z.max t0 t)) as (Hin & Hle & Hall). cbv zeta.
    split; [|split].
    + destruct Hin as [Hm|Hm]; [|right; now right].
      rewrite Hm. destruct (Z.max_spec t0 t) as [[_ ->]|[_ ->]]; [right; now left|now left].
    + lia.
    + intros x [<-|Hx]; [lia|auto].
Qed.

Lemma stream_time_spec (df : DataFrame) :
  match stream_time_in_seconds df with
  | Some t => (exists r, In r df /\ time r = t) /\ forall r, In r df -> (time r <= t)%Z
  | None => df = []
  end.
Proof.
  destruct df as [|r df]; [reflexivity|].
  unfold stream_time_in_seconds. cbn [map].
  destruct (fold_max_spec (map time df) (time r)) as (Hin & Hle & Hall).
  split.
  - destruct Hin as [Hm|Hm].
    + exists r. split; [now left|now symmetry].
    + apply in_map_iff in Hm as (r' & Hr' & Hin'). exists r'. split; [now right|assumption].
  - intros r' [<-|Hr']; [assumption|]. apply Hall. now apply in_map.
Qed.

(** X10. For a frame whose times are whole numbers the stream time is [t]
    exactly when [t] is the time of one of its rows and no row has a larger
    time; a frame without rows has no stream time. *)
Theorem stream_time_is_the_largest_whole_time (df : DataFrame) :
  (forall t, stream_time_in_seconds df = Some t <->
             (exists r, In r df /\ time r = t) /\ forall r, In r df -> (time r <= t)%Z) /\
  stream_time_in_seconds [] = None.
Proof.
  pose proof (stream_time_spec df) as H. split; [|reflexivity].
  intros t. split.
  - intros Ht. now rewrite Ht in H.
  - intros ((r & Hr & Hrt) & Hmax).
    destruct (stream_time_in_seconds df) as [t'|]; [|subst df; destruct Hr].
    destruct H as ((r' & Hr' & Hrt') & Hmax'). f_equal.
    specialize (Hmax r' Hr'). specialize (Hmax' r Hr). lia.
Qed.

Lemma get_stream_summary_parse_error file e :
  read_csv (lines file) = Raise e -> get_stream_summary file = Raise e.
Proof. intros H. unfold get_stream_summary. now rewrite H. Qed.

Lemma get_stream_summary_no_rows file :
  read_csv (lines file) = Ok [] -> get_stream_summary file = Raise ValueError.
Proof. intros H. unfold get_stream_summary. now rewrite H. Qed.

Lemma get_stream_summary_no_chat_id file df e :
  read_csv (lines file) = Ok df -> df <> [] -> chat_id_of (name file) = Raise e ->
  get_stream_summary file = Raise e.
Proof.
  intros H Hne Hid. unfold get_stream_summary. rewrite H. cbn [bind].
  destruct df as [|r df]; [congruence|]. cbn [add_column_subscriptions bind].
  now rewrite Hid.
Qed.

Lemma chat_id_of_raises name e : chat_id_of name = Raise e -> e = AttributeError.
Proof. unfold chat_id_of. destruct (search _ name); [discriminate|]. now intros [= <-]. Qed.

(** X11. For an exporter's file whose numerals have at most 18 digits the
    summarizer raises in two cases only: ValueError when the file has no data
    line, and AttributeError when it has one and the file name shows no chat
    id.  With a data line and a chat id it returns a summary that holds the
    chat id: the divisions and the revenue do not make it raise. *)
Theorem exported_file_is_refused_only_for_no_row_or_no_chat_id nm entries :
  Forall well_formed entries -> Forall (fun e => modest e = true) entries ->
  let file := {| name := nm; lines := header_line :: map entry_line entries |} in
  (entries = [] -> get_stream_summary file = Raise ValueError) /\
  (entries <> [] -> forall e, chat_id_of nm = Raise e ->
     get_stream_summary file = Raise AttributeError) /\
  (entries <> [] -> forall id, chat_id_of nm = Ok id ->
     exists s, get_stream_summary file = Ok s /\ dict_get s "chat_id" = Some (VStr id)).
Proof.
  intros Hwf _ file.
  pose proof (read_csv_entry_lines entries Hwf) as Hread.
  change (header_line :: map entry_line entries) with (lines file) in Hread.
  assert (Hrows : entries <> [] -> map entry_row entries <> [])
    by (destruct entries; [congruence|discriminate]).
  split; [|split].
  - intros ->. now apply get_stream_summary_no_rows.
  - intros Hne e He. rewrite <- (chat_id_of_raises _ _ He).
    exact (get_stream_summary_no_chat_id file _ _ Hread (Hrows Hne) He).
  - intros Hne id Hid.
    destruct (stream_time_some _ (Hrows Hne)) as (t & Ht).
    exists (summary_of id (map entry_row entries) t).
    split; [|reflexivity].
    exact (get_stream_summary_rows file _ _ _ Hread (Hrows Hne) Hid Ht).
Qed.

Lemma exported_file_is_refused_only_for_no_row_or_no_chat_id_witness :
  exists s, get_stream_summary example_stream = Ok s /\
            dict_get s "chat_id" = Some (VStr (lit "77")).
Proof.
  refine (proj2 (proj2 (exported_file_is_refused_only_for_no_row_or_no_chat_id
                          (lit "twitch-chat-77_b.csv")
                          [(lit "10", lit "Bob", lit "#fff", lit "hi, there");
                           (lit "1000", lit "alice", lit "", lit "Cheer250 wow");
                           (lit "500", lit "BOB", lit "#fff", lit "bob subscribed with Prime.");
                           (lit "700", lit "carl", lit "#fff",
                            lit "carl gifted a Tier 1 sub to bob!")] _ _))
            _ (lit "77") _).
  - repeat constructor; vm_compute; intuition discriminate.
  - repeat constructor.
  - discriminate.
  - vm_compute. reflexivity.
Defined.

(** X12. Every summary has the same sixteen keys, each once, in the order
    chat_id, messages_per_user, stream_time_in_hours, unique_users,
    total_messages, the three gift counts, the four subscription counts,
    total_bits, revenue, revenue_per_hour, revenue_per_user. *)
Theorem summary_has_sixteen_keys_in_order file s :
  get_stream_summary file = Ok s ->
  map fst s = summary_keys /\ NoDup (map fst s) /\ length s = 16.
Proof.
  intros H. apply get_stream_summary_inv in H as (df & id & t & _ & _ & _ & _ & ->).
  split; [reflexivity|]. split; [|reflexivity].
  cbn [summary_of map fst].
  repeat constructor; cbn [In]; intros Hin;
    repeat (destruct Hin as [Hin|Hin]; [discriminate|]); exact Hin.
Qed.

Lemma summary_has_sixteen_keys_in_order_witness :
  exists s, get_stream_summary zero_time_stream = Ok s /\ map fst s = summary_keys.
Proof.
  eexists. split; [vm_compute; reflexivity|].
  refine (proj1 (summary_has_sixteen_keys_in_order zero_time_stream _ _)).
  vm_compute. reflexivity.
Defined.

Lemma list_sum_map_cons {A} (f : A -> nat) v vs :
  list_sum (map f (v :: vs)) = f v + list_sum (map f vs).
Proof. reflexivity. Qed.

Lemma count_occ_cons_notin {A} (dec : forall x y : A, {x = y} + {x <> y}) x l vs :
  ~ In x vs ->
  list_sum (map (count_occ dec (x :: l)) vs) = list_sum (map (count_occ dec l) vs).
Proof.
  induction vs as [|v vs IH]; intros Hn; [reflexivity|].
  rewrite !list_sum_map_cons, IH by (intros Hin; apply Hn; now right).
  rewrite count_occ_cons_neq; [reflexivity|]. intros ->. apply Hn. now left.
Qed.

Lemma count_occ_cons_sum {A} (dec : forall x y : A, {x = y} + {x <> y}) x l vs :
  NoDup vs ->
  list_sum (map (count_occ dec (x :: l)) vs) <= 1 + list_sum (map (count_occ dec l) vs).
Proof.
  induction 1 as [|v vs Hv Hnd IH]; [simpl; lia|].
  rewrite !list_sum_map_cons. destruct (dec x v) as [->|Hne].
  - rewrite count_occ_cons_eq by reflexivity.
    rewrite count_occ_cons_notin by assumption. lia.
  - rewrite count_occ_cons_neq by assumption. lia.
Qed.

(** The occurrences of distinct values are counted among the elements. *)
Lemma count_occ_sum_le {A} (dec : forall x y : A, {x = y} + {x <> y}) vs :
  NoDup vs -> forall l, list_sum (map (count_occ dec l) vs) <= length l.
Proof.
  intros Hnd. induction l as [|x l IH].
  - induction vs; simpl; [lia|]. inversion Hnd; subst. auto.
  - pose proof (count_occ_cons_sum dec x l vs Hnd). simpl length. lia.
Qed.

(** X13. In every summary the distinct users are at least one and at most the
    messages; the three gift counts are not negative and together at most
    the messages, and so are the four subscription counts. *)
Theorem summary_counts_are_bounded file s :
  get_stream_summary file = Ok s ->
  exists users messages d1 d2 d3 sp s1 s2 s3,
    dict_get s "unique_users" = Some (VInt users) /\
    dict_get s "total_messages" = Some (VInt messages) /\
    dict_get s "donated_tier_1" = Some (VInt d1) /\
    dict_get s "donated_tier_2" = Some (VInt d2) /\
    dict_get s "donated_tier_3" = Some (VInt d3) /\
    dict_get s "subscribed_prime" = Some (VInt sp) /\
    dict_get s "subscribed_tier_1" = Some (VInt s1) /\
    dict_get s "subscribed_tier_2" = Some (VInt s2) /\
    dict_get s "subscribed_tier_3" = Some (VInt s3) /\
    (1 <= users <= messages)%Z /\
    (0 <= d1 /\ 0 <= d2 /\ 0 <= d3 /\ d1 + d2 + d3 <= messages)%Z /\
    (0 <= sp /\ 0 <= s1 /\ 0 <= s2 /\ 0 <= s3 /\ sp + s1 + s2 + s3 <= messages)%Z.
Proof.
  intros H. apply get_stream_summary_inv in H as (df & id & t & _ & Hne & _ & _ & ->).
  do 9 eexists. do 9 (split; [reflexivity|]).
  split; [|split].
  - pose proof (unique_users_pos df Hne). pose proof (unique_users_le df). lia.
  - unfold count_int.
    pose proof (count_occ_sum_le Z.eq_dec [1; 2; 3]%Z) as Hsum.
    specialize (Hsum ltac:(repeat constructor; cbn [In]; intros Hin;
                            repeat (destruct Hin as [Hin|Hin]; [discriminate|]); exact Hin)
                     (add_column_sub_gifts df)).
    rewrite !list_sum_map_cons in Hsum. cbn [map list_sum fold_right] in Hsum.
    unfold add_column_sub_gifts in Hsum at 4.
    rewrite length_map in Hsum. lia.
  - unfold count_str.
    set (col := fst (List.split (map (fun r => _get_subscription_type (message r)) df))).
    pose proof (count_occ_sum_le str_eq_dec
                  [lit "prime"; lit "tier_1"; lit "tier_2"; lit "tier_3"]) as Hsum.
    specialize (Hsum ltac:(repeat constructor; cbn [In]; intros Hin;
                            repeat (destruct Hin as [Hin|Hin]; [discriminate|]); exact Hin)
                     col).
    rewrite !list_sum_map_cons in Hsum. cbn [map list_sum fold_right] in Hsum.
    unfold col in Hsum at 5.
    rewrite length_fst_split, length_map in Hsum. lia.
Qed.

Lemma summary_counts_are_bounded_witness :
  exists s users messages,
    get_stream_summary example_stream = Ok s /\
    dict_get s "unique_users" = Some (VInt users) /\
    dict_get s "total_messages" = Some (VInt messages) /\
    (1 <= users <= messages)%Z.
Proof.
  eexists.
  destruct (summary_counts_are_bounded example_stream _ ltac:(vm_compute; reflexivity))
    as (users & messages & d1 & d2 & d3 & sp & s1 & s2 & s3 & Hu & Hm & _ & _ & _ & _
        & _ & _ & _ & Hb & _).
  exists users, messages. split; [reflexivity|]. repeat split; assumption || apply Hb.
Defined.

(** ** Folders and the command line *)

Lemma traverse_app {A B} (f : A -> res B) : forall l1 l2,
  traverse f (l1 ++ l2) =
  (b1 <- traverse f l1 ;; b2 <- traverse f l2 ;; Ok (b1 ++ b2)).
Proof.
  induction l1 as [|a l1 IH]; intros l2; cbn [app traverse].
  - cbn [bind]. destruct (traverse f l2); reflexivity.
  - destruct (f a) as [b|e]; [|reflexivity]. cbn [bind]. rewrite IH.
    destruct (traverse f l1) as [b1|e]; [|reflexivity]. cbn [bind].
    destruct (traverse f l2) as [b2|e]; reflexivity.
Qed.

(** A comprehension over the folders, then over the files of each, finds
    what one comprehension over all the files finds. *)
Lemma traverse_concat {A B} (f : A -> res B) : forall ls,
  (tables <- traverse (traverse f) ls ;; Ok (concat tables)) = traverse f (concat ls).
Proof.
  induction ls as [|l ls IH]; [reflexivity|].
  cbn [traverse concat]. rewrite traverse_app, <- IH.
  destruct (traverse f l) as [b|e]; [|reflexivity]. cbn [bind].
  destruct (traverse (traverse f) ls) as [bs|e]; reflexivity.
Qed.

Lemma traverse_raise_iff {A B} (f : A -> res B) e : forall l,
  traverse f l = Raise e <->
  exists pre x post, l = pre ++ x :: post /\
    Forall (fun a => exists b, f a = Ok b) pre /\ f x = Raise e.
Proof.
  induction l as [|a l IH]; cbn [traverse].
  - split; [discriminate|]. intros (pre & x & post & H & _). destruct pre; discriminate.
  - destruct (f a) as [b|e'] eqn:Ea; cbn [bind].
    + split.
      * intros H. destruct (traverse f l) as [bs|e'] eqn:El; [discriminate|].
        cbn [bind] in H. injection H as ->.
        destruct (proj1 IH eq_refl) as (pre & x & post & -> & Hpre & Hx).
        exists (a :: pre), x, post. repeat split; [|assumption]. constructor; eauto.
      * intros (pre & x & post & Heq & Hpre & Hx).
        destruct pre as [|a' pre]; cbn [app] in Heq; injection Heq as <- ->.
        -- congruence.
        -- inversion Hpre; subst.
           rewrite (proj2 IH) by (exists pre, x, post; auto). reflexivity.
    + split.
      * intros H. injection H as ->. exists [], a, l. repeat split; [constructor|assumption].
      * intros (pre & x & post & Heq & Hpre & Hx).
        destruct pre as [|a' pre]; cbn [app] in Heq; injection Heq as <- ->.
        -- congruence.
        -- inversion Hpre as [|? ? (b & Hb) _]; subst. congruence.
Qed.

Lemma traverse_length {A B} (f : A -> res B) l bs :
  traverse f l = Ok bs -> length bs = length l.
Proof. intros H. apply traverse_inv in H. symmetry. eapply Forall2_length; eassumption. Qed.

(** X14. The table of a folder raises exactly what the summary of its first
    file that cannot be summarized raises: the files after it are not
    looked at and no partial table is returned. *)
Theorem folder_table_raises_with_its_first_bad_file folder e :
  create_summary_table_from_folder folder = Raise e <->
  exists pre f post,
    folder = pre ++ f :: post /\
    Forall (fun g => exists s, get_stream_summary g = Ok s) pre /\
    get_stream_summary f = Raise e.
Proof. apply traverse_raise_iff. Qed.

Lemma folders_as_one folders :
  folders <> [] ->
  create_summary_table_from_multiple_folders folders
  = create_summary_table_from_folder (concat folders).
Proof.
  intros Hne. unfold create_summary_table_from_multiple_folders.
  change (create_summary_table_from_folder (concat folders))
    with (traverse get_stream_summary (concat folders)).
  rewrite <- traverse_concat.
  change (traverse (traverse get_stream_summary) folders)
    with (traverse create_summary_table_from_folder folders).
  destruct (traverse create_summary_table_from_folder folders) as [tables|e] eqn:E;
    [|reflexivity].
  cbn [bind]. apply traverse_length in E.
  destruct tables; [|reflexivity]. destruct folders; [congruence|discriminate].
Qed.

(** X15. The table of several folders is the table of one folder that holds
    all their files, folder after folder; only for an empty list of folders
    does it raise ValueError where the table of an empty folder is empty. *)
Theorem folders_are_summarized_as_one_folder :
  create_summary_table_from_multiple_folders [] = Raise ValueError /\
  create_summary_table_from_folder [] = Ok [] /\
  forall folders, folders <> [] ->
    create_summary_table_from_multiple_folders folders
    = create_summary_table_from_folder (concat folders).
Proof. split; [reflexivity|]. split; [reflexivity|]. exact folders_as_one. Qed.

Section MainFacts.

Variable Series_sum : list float -> float.
Variable rglob_csv : str -> list File.
Variable FOLDER : str.
Variable terminal_width : nat.

Lemma folders_of_not_nil argv : map rglob_csv (folders_of FOLDER argv) <> [].
Proof. destruct argv; discriminate. Qed.

Lemma main_table argv :
  main Series_sum rglob_csv FOLDER terminal_width argv =
  (df <- create_summary_table_from_folder (concat (map rglob_csv (folders_of FOLDER argv))) ;;
   match df with
   | [] =>
       Ok [Text (lit "You can download stream chat data from `https://www.twitchchatdownloader.com/`")]
   | _ =>
       Ok [Frame df; Text (repeat "-"%char terminal_width);
           Frame (calculate_average Series_sum df)]
   end).
Proof. unfold main. now rewrite folders_as_one by apply folders_of_not_nil. Qed.

(** X16. The script raises only what the summary of a file raises, namely of
    the first file, in the order of the folders, that cannot be summarized:
    since the folder of the script stands in for an empty argument list, the
    ValueError of an empty list of folders cannot occur. *)
Theorem main_raises_with_the_first_bad_file argv e :
  main Series_sum rglob_csv FOLDER terminal_width argv = Raise e <->
  exists pre f post,
    concat (map rglob_csv (folders_of FOLDER argv)) = pre ++ f :: post /\
    Forall (fun g => exists s, get_stream_summary g = Ok s) pre /\
    get_stream_summary f = Raise e.
Proof.
  rewrite main_table, <- traverse_raise_iff. unfold create_summary_table_from_folder.
  destruct (traverse get_stream_summary (concat (map rglob_csv (folders_of FOLDER argv))))
    as [[|row df]|e']; cbn [bind]; split; intros H; try discriminate;
    now injection H as ->.
Qed.

(** X17. Without arguments the script reads the folder of the script.  When no
    folder holds a file it prints the download hint and nothing else; when
    there are files and each can be summarized it prints the table with one
    row per file, a line of dashes as wide as the terminal, and the one-row
    average of that table. *)
Theorem main_prints_hint_or_table_and_average argv :
  let files := concat (map rglob_csv (folders_of FOLDER argv)) in
  main Series_sum rglob_csv FOLDER terminal_width [] =
  main Series_sum rglob_csv FOLDER terminal_width [FOLDER] /\
  (files = [] ->
   main Series_sum rglob_csv FOLDER terminal_width argv =
   Ok [Text (lit "You can download stream chat data from `https://www.twitchchatdownloader.com/`")]) /\
  (files <> [] -> (forall f, In f files -> exists s, get_stream_summary f = Ok s) ->
   exists df avg,
     main Series_sum rglob_csv FOLDER terminal_width argv =
     Ok [Frame df; Text (repeat "-"%char terminal_width); Frame [avg]] /\
     Forall2 (fun f row => get_stream_summary f = Ok row) files df /\
     calculate_average Series_sum df = [avg]).
Proof.
  intros files. split; [reflexivity|]. split.
  - intros Hnil. rewrite main_table. fold files. rewrite Hnil. reflexivity.
  - intros Hne Hall. rewrite main_table. fold files.
    destruct (traverse_ok get_stream_summary files Hall) as (df & Hdf).
    unfold create_summary_table_from_folder. rewrite Hdf. cbn [bind].
    pose proof (traverse_inv _ _ _ Hdf) as HF.
    destruct df as [|row df].
    + inversion HF as [Hf|]. congruence.
    + eexists. eexists. split; [reflexivity|]. split; [exact HF|reflexivity].
Qed.

End MainFacts.

(** ** The revenue and the other keys *)

Lemma dict_get_set_other d key v k :
  key <> k -> dict_get (dict_set d key v) k = dict_get d k.
Proof.
  intros Hne. induction d as [|[k' w] d IH]; cbn [dict_set dict_get].
  - destruct (String.eqb_spec key k); [congruence|reflexivity].
  - destruct (String.eqb_spec k' key) as [->|Hk']; cbn [dict_get].
    + destruct (String.eqb_spec key k); [congruence|reflexivity].
    + now rewrite IH.
Qed.

Lemma dict_get_set_same d key v : dict_get (dict_set d key v) key = Some v.
Proof.
  induction d as [|[k' w] d IH]; cbn [dict_set dict_get].
  - now rewrite String.eqb_refl.
  - destruct (String.eqb_spec k' key) as [->|Hk']; cbn [dict_get].
    + now rewrite String.eqb_refl.
    + destruct (String.eqb_spec k' key); [congruence|exact IH].
Qed.

Lemma get_int_set_other d key v k : key <> k -> get_int (dict_set d key v) k = get_int d k.
Proof. intros Hne. unfold get_int. now rewrite dict_get_set_other. Qed.

(** X18. The revenue reads the seven counts and the bits total only: storing
    a value under any other key, as the summarizer does afterwards with the
    revenue and the two ratios, leaves it as it was. *)
Theorem revenue_ignores_the_other_keys result key v :
  ~ In key (count_keys ++ ["total_bits"%string]) ->
  calculate_revenue (dict_set result key v) = calculate_revenue result.
Proof.
  intros Hn. unfold calculate_revenue.
  rewrite !get_int_set_other; [reflexivity| | | | | | | |];
    intros ->; apply Hn; cbn [count_keys app In]; tauto.
Qed.

Lemma revenue_ignores_the_other_keys_witness :
  calculate_revenue (dict_set (counts 2 0 0 1 0 0 0 100) "revenue" (VFloat 8.5))
  = calculate_revenue (counts 2 0 0 1 0 0 0 100).
Proof.
  apply revenue_ignores_the_other_keys.
  cbn [count_keys app In]. intros H.
  repeat (destruct H as [H|H]; [discriminate|]). exact H.
Defined.

(** X19. The revenue stored in a summary is the revenue of the finished
    summary: computing it again from the sixteen keys gives the stored
    number. *)
Theorem summary_revenue_is_the_revenue_of_the_summary file s :
  get_stream_summary file = Ok s ->
  exists revenue, dict_get s "revenue" = Some (VFloat revenue) /\
                  calculate_revenue s = Ok revenue.
Proof.
  intros H. apply get_stream_summary_inv in H as (df & id & t & _ & _ & _ & _ & ->).
  eexists. split; [reflexivity|].
  erewrite calculate_revenue_counts by reflexivity. reflexivity.
Qed.

Lemma summary_revenue_is_the_revenue_of_the_summary_witness :
  exists s revenue,
    get_stream_summary example_stream = Ok s /\
    dict_get s "revenue" = Some (VFloat revenue) /\ calculate_revenue s = Ok revenue.
Proof.
  eexists.
  destruct (summary_revenue_is_the_revenue_of_the_summary example_stream _
              ltac:(vm_compute; reflexivity)) as (revenue & H1 & H2).
  exists revenue. split; [reflexivity|]. split; assumption.
Defined.

(** X20. When one of the seven counts or the bits total is missing from the
    dict and the others are integers, the revenue raises KeyError. *)
Theorem revenue_of_a_dict_without_a_count_raises result key :
  In key (count_keys ++ ["total_bits"%string]) ->
  dict_get result key = None ->
  (forall k, In k (count_keys ++ ["total_bits"%string]) -> k <> key ->
     exists z, dict_get result k = Some (VInt z)) ->
  calculate_revenue result = Raise KeyError.
Proof.
  intros Hkey Hnone Hothers.
  assert (Hget : forall k, In k (count_keys ++ ["total_bits"%string]) ->
                   get_int result k = Raise KeyError \/ exists z, get_int result k = Ok z).
  { intros k Hk. unfold get_int. destruct (String.eqb_spec k key) as [->|Hne].
    - left. now rewrite Hnone.
    - right. destruct (Hothers k Hk Hne) as (z & ->). eauto. }
  assert (Hmiss : get_int result key = Raise KeyError) by (unfold get_int; now rewrite Hnone).
  unfold calculate_revenue.
  cbn [count_keys app In] in Hkey, Hget.
  destruct (Hget "donated_tier_1"%string ltac:(tauto)) as [->|(z1 & E1)]; [reflexivity|].
  destruct (Hget "donated_tier_2"%string ltac:(tauto)) as [E2|(z2 & E2)];
    [rewrite E1, E2; reflexivity|].
  destruct (Hget "donated_tier_3"%string ltac:(tauto)) as [E3|(z3 & E3)];
    [rewrite E1, E2, E3; reflexivity|].
  destruct (Hget "subscribed_prime"%string ltac:(tauto)) as [E4|(z4 & E4)];
    [rewrite E1, E2, E3, E4; reflexivity|].
  destruct (Hget "subscribed_tier_1"%string ltac:(tauto)) as [E5|(z5 & E5)];
    [rewrite E1, E2, E3, E4, E5; reflexivity|].
  destruct (Hget "subscribed_tier_2"%string ltac:(tauto)) as [E6|(z6 & E6)];
    [rewrite E1, E2, E3, E4, E5, E6; reflexivity|].
  destruct (Hget "subscribed_tier_3"%string ltac:(tauto)) as [E7|(z7 & E7)];
    [rewrite E1, E2, E3, E4, E5, E6, E7; reflexivity|].
  destruct (Hget "total_bits"%string ltac:(tauto)) as [E8|(z8 & E8)];
    [rewrite E1, E2, E3, E4, E5, E6, E7, E8; reflexivity|].
  exfalso.
  repeat (destruct Hkey as [<-|Hkey]; [congruence|]). exact Hkey.
Qed.

Lemma revenue_of_a_dict_without_a_count_raises_witness :
  calculate_revenue
    [("donated_tier_1", VInt 2); ("donated_tier_2", VInt 0); ("donated_tier_3", VInt 0);
     ("subscribed_prime", VInt 1); ("subscribed_tier_1", VInt 0);
     ("subscribed_tier_2", VInt 0); ("total_bits", VInt 100)]%string
  = Raise KeyError.
Proof.
  apply (revenue_of_a_dict_without_a_count_raises _ "subscribed_tier_3"%string).
  - cbn [count_keys app In]. tauto.
  - reflexivity.
  - cbn [count_keys app In]. intros k Hk Hne.
    repeat (destruct Hk as [<-|Hk]; [try congruence; eexists; reflexivity|]).
    destruct Hk.
Defined.

(** ** The order of the rows *)

Lemma fst_split_map {A B C} (f : A -> B * C) (l : list A) :
  fst (List.split (map f l)) = map (fun a => fst (f a)) l.
Proof.
  induction l as [|a l IH]; [reflexivity|].
  cbn [map List.split]. destruct (f a) as [b c] eqn:E.
  destruct (List.split (map f l)) as [bs cs]. cbn [fst] in *. now rewrite IH.
Qed.

Lemma perm_fold_add (l l' : list Z) :
  Permutation l l' -> forall acc, fold_left Z.add l acc = fold_left Z.add l' acc.
Proof.
  induction 1 as [|x l l' _ IH|x y l|l l' l'' _ IH1 _ IH2]; intros acc; cbn [fold_left].
  - reflexivity.
  - apply IH.
  - f_equal. lia.
  - now rewrite IH1.
Qed.

Lemma perm_unique_users (df df' : DataFrame) :
  Permutation df df' -> unique_users df = unique_users df'.
Proof.
  intros H. unfold unique_users. f_equal.
  assert (Hp : Permutation (map user_name df) (map user_name df')) by now apply Permutation_map.
  apply Nat.le_antisymm; apply NoDup_incl_length; try apply NoDup_nodup;
    intros x Hx; apply nodup_In; apply nodup_In in Hx.
  - eapply Permutation_in; eassumption.
  - eapply Permutation_in; [symmetry|]; eassumption.
Qed.

Lemma perm_stream_time (df df' : DataFrame) t :
  Permutation df df' -> stream_time_in_seconds df = Some t ->
  stream_time_in_seconds df' = Some t.
Proof.
  intros Hp Ht.
  pose proof (stream_time_spec df) as H. rewrite Ht in H.
  destruct H as ((r & Hr & Hrt) & Hmax).
  pose proof (stream_time_spec df') as H'.
  destruct (stream_time_in_seconds df') as [t'|].
  - destruct H' as ((r' & Hr' & Hrt') & Hmax'). f_equal.
    assert (time r <= t')%Z by (apply Hmax'; eapply Permutation_in; eassumption).
    assert (time r' <= t)%Z
      by (apply Hmax; eapply Permutation_in; [symmetry|]; eassumption).
    lia.
  - subst df'. apply Permutation_sym, Permutation_nil in Hp. subst df. discriminate.
Qed.

Lemma perm_summary_of id (df df' : DataFrame) t :
  Permutation df df' -> summary_of id df t = summary_of id df' t.
Proof.
  intros Hp. unfold summary_of.
  rewrite (perm_unique_users _ _ Hp), (Permutation_length Hp).
  assert (Hg : forall v, count_int (add_column_sub_gifts df) v
                         = count_int (add_column_sub_gifts df') v).
  { intros v. unfold count_int. f_equal. apply Permutation_count_occ.
    unfold add_column_sub_gifts. now apply Permutation_map. }
  assert (Hs : forall v,
             count_str (fst (List.split (map (fun r => _get_subscription_type (message r)) df))) v
             = count_str (fst (List.split (map (fun r => _get_subscription_type (message r)) df'))) v).
  { intros v. unfold count_str. f_equal. apply Permutation_count_occ.
    rewrite !fst_split_map. now apply Permutation_map. }
  assert (Hb : fold_left Z.add (add_column_bits df) 0%Z
               = fold_left Z.add (add_column_bits df') 0%Z).
  { apply perm_fold_add. unfold add_column_bits. now apply Permutation_map. }
  cbv zeta. rewrite !Hg, !Hs, Hb. reflexivity.
Qed.

(** X22. The summary of a stream does not depend on the order of its rows:
    two files of the same name whose frames hold the same rows in different
    orders have the same summary, or raise the same exception. *)
Theorem summary_ignores_the_order_of_the_rows f1 f2 df1 df2 :
  name f1 = name f2 ->
  read_csv (lines f1) = Ok df1 -> read_csv (lines f2) = Ok df2 ->
  Permutation df1 df2 ->
  get_stream_summary f1 = get_stream_summary f2.
Proof.
  intros Hname H1 H2 Hp.
  destruct df1 as [|r df1].
  - apply Permutation_nil in Hp. subst df2.
    now rewrite (get_stream_summary_no_rows _ H1), (get_stream_summary_no_rows _ H2).
  - assert (Hne2 : df2 <> []).
    { intros ->. apply Permutation_sym, Permutation_nil in Hp. discriminate. }
    destruct (chat_id_of (name f1)) as [id|e] eqn:Hid.
    + destruct (stream_time_some (r :: df1) ltac:(discriminate)) as (t & Ht).
      rewrite (get_stream_summary_rows _ _ _ _ H1 ltac:(discriminate) Hid Ht).
      rewrite Hname in Hid.
      rewrite (get_stream_summary_rows _ _ _ _ H2 Hne2 Hid (perm_stream_time _ _ _ Hp Ht)).
      f_equal. now apply perm_summary_of.
    + rewrite (get_stream_summary_no_chat_id _ _ _ H1 ltac:(discriminate) Hid).
      rewrite Hname in Hid.
      now rewrite (get_stream_summary_no_chat_id _ _ _ H2 Hne2 Hid).
Qed.

Lemma summary_ignores_the_order_of_the_rows_witness :
  get_stream_summary example_stream = get_stream_summary example_stream_reordered.
Proof.
  refine (summary_ignores_the_order_of_the_rows example_stream example_stream_reordered
            [{| time := 10; user_name := lit "bob"; message := lit "hi, there" |};
             {| time := 1000; user_name := lit "alice"; message := lit "Cheer250 wow" |};
             {| time := 500; user_name := lit "bob";
                message := lit "bob subscribed with Prime." |};
             {| time := 700; user_name := lit "carl";
                message := lit "carl gifted a Tier 1 sub to bob!" |}]
            [{| time := 700; user_name := lit "carl";
                message := lit "carl gifted a Tier 1 sub to bob!" |};
             {| time := 10; user_name := lit "bob"; message := lit "hi, there" |};
             {| time := 500; user_name := lit "bob";
                message := lit "bob subscribed with Prime." |};
             {| time := 1000; user_name := lit "alice"; message := lit "Cheer250 wow" |}]
            eq_refl _ _ _).
  - vm_compute. reflexivity.
  - vm_compute. reflexivity.
  - apply Permutation_sym, Permutation_cons_app with (l1 := [_; _; _]) (l2 := []).
    cbn [app]. apply perm_skip. apply perm_swap.
Defined.
